(** * Wigner-distribution-deconvolution ptychography ([src/pty/wdd.py])

    A shallow embedding of the three functions of [wdd.py]
    ([psi_multiply], [fft_wigner_probe], [wdd]) and the properties the
    specification states about them.

    Conventions of the embedding.
    - A numpy [float64] is an exact real ([R]); a [complex128] is a pair of
      reals ([C]).  Rounding, overflow and the IEEE values inf and nan are
      outside the model: where numpy would produce inf or nan (division by
      zero, square root of a negative number) the model has whatever [R]
      gives, and no theorem below relies on that value.
    - An [ndarray] is its shape together with its content read by index.
      Only the entries inside the shape are meaningful.
    - A Python call that can raise returns a [result]; a raised exception
      is [Err].
    - Library routines of numpy and scipy (FFTs, centering shifts, the
      interpolating shift) and the two collaborators of the package that
      are imported but not part of this file ([gp.make_probe],
      [pu.sparse4D]) are the fields of a record [collaborators], over
      which every function of the file is parameterized.
    - The [numba.jit] decorators are taken to preserve the meaning of the
      functions they decorate. *)

From Stdlib Require Import Reals.Reals Psatz List Arith.PeanoNat Strings.String Bool.Bool.
Import ListNotations.

Open Scope R_scope.

(** ** Exceptions and the error monad *)

Inductive exn : Type :=
| TypeError
| NameError (name : string)
| IndexError
| ValueError
| UserError (cls : string).

Inductive result (A : Type) : Type :=
| Ok (a : A)
| Err (e : exn).
Arguments Ok {A} a.
Arguments Err {A} e.

Definition bind {A B : Type} (m : result A) (k : A -> result B) : result B :=
  match m with
  | Ok a => k a
  | Err e => Err e
  end.

Notation "x <- m ;; k" := (bind m (fun x => k))
  (at level 61, m at next level, right associativity).

(** [for i in l: s = body(i, s)], stopping at the first exception. *)
Fixpoint for_loop {S : Type} (l : list nat) (s : S)
    (body : nat -> S -> result S) : result S :=
  match l with
  | [] => Ok s
  | i :: rest => s' <- body i s ;; for_loop rest s' body
  end.

(** [for i in range(n)] *)
Definition for_range {S : Type} (n : nat) (s : S)
    (body : nat -> S -> result S) : result S :=
  for_loop (seq 0 n) s body.

(** ** Complex numbers *)

Record C : Type := mkC { Re : R; Im : R }.

Definition C0 : C := mkC 0 0.
Definition RtoC (x : R) : C := mkC x 0.
Definition Cmult (a b : C) : C :=
  mkC (Re a * Re b - Im a * Im b) (Re a * Im b + Im a * Re b).
Definition Cconj (a : C) : C := mkC (Re a) (- Im a).
(** [np.abs] of a complex number *)
Definition Cabs (a : C) : R := sqrt (Re a * Re a + Im a * Im a).
(** a complex number divided by a float *)
Definition Cdiv_real (a : C) (r : R) : C := mkC (Re a / r) (Im a / r).

(** ** Arrays *)

Record ndarray2 (A : Type) : Type :=
  mk2 { shape2 : nat * nat; at2 : nat -> nat -> A }.
Arguments mk2 {A} _ _.
Arguments shape2 {A} _.
Arguments at2 {A} _ _ _.

Record ndarray4 (A : Type) : Type :=
  mk4 { shape4 : nat * nat * nat * nat; at4 : nat -> nat -> nat -> nat -> A }.
Arguments mk4 {A} _ _.
Arguments shape4 {A} _.
Arguments at4 {A} _ _ _ _ _.

Definition map2 {A B : Type} (f : A -> B) (a : ndarray2 A) : ndarray2 B :=
  mk2 (shape2 a) (fun i j => f (at2 a i j)).
Definition map4 {A B : Type} (f : A -> B) (a : ndarray4 A) : ndarray4 B :=
  mk4 (shape4 a) (fun i j k l => f (at4 a i j k l)).

(** [np.zeros(shape).astype(complex)] *)
Definition np_zeros4 (sh : nat * nat * nat * nat) : ndarray4 C :=
  mk4 sh (fun _ _ _ _ => C0).

(** [np.conj] *)
Definition np_conj2 (a : ndarray2 C) : ndarray2 C := map2 Cconj a.
Definition np_conj4 (a : ndarray4 C) : ndarray4 C := map4 Cconj a.

(** numpy broadcasting of two axis lengths: equal, or one of them is 1. *)
Definition broadcast_dim (a b : nat) : result nat :=
  if Nat.eqb a b then Ok a
  else if Nat.eqb a 1 then Ok b
  else if Nat.eqb b 1 then Ok a
  else Err ValueError.

(** The index read on an axis of length [n] that is broadcast. *)
Definition bidx (n i : nat) : nat := if Nat.eqb n 1 then 0%nat else i.

(** [np.multiply] of two 2D arrays. *)
Definition np_multiply (a b : ndarray2 C) : result (ndarray2 C) :=
  let '(a0, a1) := shape2 a in
  let '(b0, b1) := shape2 b in
  n0 <- broadcast_dim a0 b0 ;;
  n1 <- broadcast_dim a1 b1 ;;
  Ok (mk2 (n0, n1)
        (fun i j => Cmult (at2 a (bidx a0 i) (bidx a1 j))
                          (at2 b (bidx b0 i) (bidx b1 j)))).

(** [a[:, :, k, l]] *)
Definition getslice_last {A : Type} (a : ndarray4 A) (k l : nat) : result (ndarray2 A) :=
  let '(n0, n1, n2, n3) := shape4 a in
  if Nat.ltb k n2 && Nat.ltb l n3
  then Ok (mk2 (n0, n1) (fun i j => at4 a i j k l))
  else Err IndexError.

(** [a[i, j, :, :]] *)
Definition getslice_first {A : Type} (a : ndarray4 A) (i j : nat) : result (ndarray2 A) :=
  let '(n0, n1, n2, n3) := shape4 a in
  if Nat.ltb i n0 && Nat.ltb j n1
  then Ok (mk2 (n2, n3) (fun k l => at4 a i j k l))
  else Err IndexError.

(** Can an axis of length [s] be stored into one of length [n]? *)
Definition fits (s n : nat) : bool := Nat.eqb s n || Nat.eqb s 1.

(** [a[:, :, k, l] = v] *)
Definition setslice_last {A : Type} (a : ndarray4 A) (k l : nat) (v : ndarray2 A)
  : result (ndarray4 A) :=
  let '(n0, n1, n2, n3) := shape4 a in
  let '(v0, v1) := shape2 v in
  if Nat.ltb k n2 && Nat.ltb l n3 then
    if fits v0 n0 && fits v1 n1 then
      Ok (mk4 (n0, n1, n2, n3)
            (fun i j k' l' =>
               if Nat.eqb k' k && Nat.eqb l' l
               then at2 v (bidx v0 i) (bidx v1 j)
               else at4 a i j k' l'))
    else Err ValueError
  else Err IndexError.

(** Is the index inside the shape? *)
Definition in_shape4 (sh : nat * nat * nat * nat) (i j k l : nat) : Prop :=
  let '(n0, n1, n2, n3) := sh in
  (i < n0 /\ j < n1 /\ k < n2 /\ l < n3)%nat.

(** ** [psi_multiply] (lines 9-39) *)

(** The subscripts are checked as in the function without its decorator.
    Compiled by numba without bounds checking, a read of [data_2] outside
    its shape is not checked; no property below rests on that path. *)

Definition psi_multiply (data_1 data_2 : ndarray4 C) : result (ndarray4 C) :=
  let data_size := shape4 data_1 in
  let '(n0, n1, n2, n3) := data_size in
  let multiplied_data := np_zeros4 (n0, n1, n2, n3) in
  for_range n3 multiplied_data (fun jj multiplied_data =>
    for_range n2 multiplied_data (fun ii multiplied_data =>
      a <- getslice_last data_1 ii jj ;;
      b <- getslice_last data_2 ii jj ;;
      p <- np_multiply a (np_conj2 b) ;;
      setslice_last multiplied_data ii jj p)).

(** ** Sums and means *)

(** [f 0 + f 1 + ... + f (n-1)] *)
Fixpoint rsum (n : nat) (f : nat -> R) : R :=
  match n with
  | O => 0
  | S n' => rsum n' f + f n'
  end.

(** [np.sum] of a 2D array *)
Definition np_sum2 (a : ndarray2 R) : R :=
  let '(n0, n1) := shape2 a in
  rsum n0 (fun i => rsum n1 (fun j => at2 a i j)).

(** [np.mean(a, axis=(2,3))]: the mean over the last two axes, one value
    per index of the first two. *)
Definition np_mean_axes23 (a : ndarray4 R) : ndarray2 R :=
  let '(n0, n1, n2, n3) := shape4 a in
  mk2 (n0, n1)
    (fun i j => rsum n2 (fun k => rsum n3 (fun l => at4 a i j k l)) / INR (n2 * n3)).

(** [np.abs(a) ** 2] *)
Definition np_abs_sq2 (a : ndarray2 C) : ndarray2 R := map2 (fun z => Cabs z ^ 2) a.
Definition np_abs_sq4 (a : ndarray4 C) : ndarray4 R := map4 (fun z => Cabs z ^ 2) a.

(** ** The collaborators

    Arguments of a Python call, as far as [make_probe] receives them. *)
Inductive pyarg : Type :=
| AFloat (x : R)
| AInt (n : nat)
| ATuple (p : nat * nat).

(** The routines [wdd.py] calls and does not define: [gp.make_probe] and
    [pu.sparse4D] of the package, [scnd.interpolation.shift] of scipy, and
    the FFT routines of numpy with their [axes] argument. *)
Record collaborators : Type := {
  gp_make_probe : list pyarg -> result (ndarray2 C);
  pu_sparse4D : ndarray4 C -> ndarray4 R -> result (ndarray4 C);
  scnd_shift : ndarray2 C -> R * R -> result (ndarray2 C);
  np_fft2 : ndarray4 C -> nat * nat -> result (ndarray4 C);
  np_ifft2 : ndarray4 C -> nat * nat -> result (ndarray4 C);
  np_fftshift : ndarray4 C -> nat * nat -> result (ndarray4 C);
  np_ifftshift : ndarray4 C -> nat * nat -> result (ndarray4 C);
  (** [np.fft.fft2] of a 2D array, default axes *)
  np_fft2_2d : ndarray2 C -> result (ndarray2 C)
}.

(** ** Names

    The names bound at module level by [wdd.py] (its imports and its three
    functions), and the built-in names the file uses. *)
Inductive pyobj : Type :=
| PyModule (name : string)
| PyFunction (name : string)
| PyBuiltin (name : string).

Definition module_globals : list (string * pyobj) :=
  [ ("np", PyModule "numpy");
    ("numba", PyModule "numba");
    ("scnd", PyModule "scipy.ndimage");
    ("iu", PyModule "util.image_utils");
    ("gp", PyModule "beam.gen_probe");
    ("pu", PyModule "pty.pty_utils");
    ("psi_multiply", PyFunction "psi_multiply");
    ("fft_wigner_probe", PyFunction "fft_wigner_probe");
    ("wdd", PyFunction "wdd") ]%string.

Definition builtins : list (string * pyobj) :=
  [ ("range", PyBuiltin "range"); ("int", PyBuiltin "int") ]%string.

Fixpoint lookup (x : string) (ns : list (string * pyobj)) : option pyobj :=
  match ns with
  | [] => None
  | (y, o) :: rest => if String.eqb x y then Some o else lookup x rest
  end.

(** Reading a name that the function does not assign: module globals, then
    built-ins, then [NameError]. *)
Definition load_global (x : string) : result pyobj :=
  match lookup x module_globals with
  | Some o => Ok o
  | None =>
      match lookup x builtins with
      | Some o => Ok o
      | None => Err (NameError x)
      end
  end.

(** A module or a function is not an operand of [np.multiply]. *)
Definition as_ndarray2 (o : pyobj) : result (ndarray2 C) := Err TypeError.

Section Program.

Variable E : collaborators.

(** ** [fft_wigner_probe] (lines 41-105) *)

(** line 95 *)
Definition fft_wigner_probe_tb (aperture_mrad voltage : R) (image_x image_y : nat)
    (calibration_pm : R) : result (ndarray2 C) :=
  gp_make_probe E
    [AFloat aperture_mrad; AFloat voltage; AInt image_x; AInt image_y;
     AFloat calibration_pm].

(** line 96 *)
Definition scale_probe (tb : ndarray2 C) (intensity_param : R) : ndarray2 C :=
  map2 (fun z => Cdiv_real z intensity_param) tb.

(** lines 100-104, the body of the two loops *)
Definition fft_wigner_probe_body (fourier_beam : ndarray2 C) (image_x image_y : nat)
    (rows_x rows_y : nat) (wigner_beam : ndarray4 C) : result (ndarray4 C) :=
  let xpos := INR rows_x - INR image_x / 2 in
  let ypos := INR rows_y - INR image_y / 2 in
  moved_fourier_beam <- scnd_shift E fourier_beam (- xpos, - ypos) ;;
  convolved_beam <- np_multiply (np_conj2 fourier_beam) moved_fourier_beam ;;
  setslice_last wigner_beam rows_x rows_y convolved_beam.

Definition fft_wigner_probe (aperture_mrad voltage : R) (image_size : nat * nat)
    (calibration_pm : R) (intensity_param : R) : result (ndarray4 C) :=
  let image_y := fst image_size in
  let image_x := snd image_size in
  tb <- fft_wigner_probe_tb aperture_mrad voltage image_x image_y calibration_pm ;;
  let fourier_beam := scale_probe tb intensity_param in
  let wigner_beam := np_zeros4 (image_x, image_y, image_x, image_y) in
  for_range image_x wigner_beam (fun rows_x wigner_beam =>
    for_range image_y wigner_beam (fun rows_y wigner_beam =>
      fft_wigner_probe_body fourier_beam image_x image_y rows_x rows_y wigner_beam)).

(** ** [wdd] (lines 107-169) *)

(** line 158 *)
Definition wdd_electron_beam (aperture_mrad voltage : R) (image_x image_y : nat)
    (calibration_pm : R) : result (ndarray2 C) :=
  gp_make_probe E
    [AFloat aperture_mrad; AFloat voltage; ATuple (image_x, image_y);
     AFloat calibration_pm].

(** line 159 *)
Definition wdd_diffractogram_intensity (data4D : ndarray4 R) : R :=
  np_sum2 (np_mean_axes23 data4D).

(** line 160 *)
Definition wdd_mainbeam_intensity (electron_beam : ndarray2 C) : R :=
  np_sum2 (np_abs_sq2 electron_beam).

(** line 161; [x ** 0.5] is the square root *)
Definition wdd_intensity_changer (electron_beam : ndarray2 C) (data4D : ndarray4 R) : R :=
  sqrt (wdd_mainbeam_intensity electron_beam / wdd_diffractogram_intensity data4D).

(** line 163; the FFT of a real array is the FFT of the same array with
    zero imaginary parts *)
Definition wdd_dataFT (data4D : ndarray4 R) : result (ndarray4 C) :=
  t <- np_fft2 E (map4 RtoC data4D) (2, 3)%nat ;;
  np_fftshift E t (2, 3)%nat.

(** line 164 *)
Definition wdd_dataIFT (dataFT : ndarray4 C) : result (ndarray4 C) :=
  t <- np_ifft2 E dataFT (0, 1)%nat ;;
  np_ifftshift E t (0, 1)%nat.

(** line 165 *)
Definition wdd_inverse_wigner (wigner_beam : ndarray4 C) : result (ndarray4 C) :=
  t <- np_ifft2 E wigner_beam (0, 1)%nat ;;
  np_ifftshift E t (0, 1)%nat.

(** line 166, the first argument of [pu.sparse4D] *)
Definition wdd_product (dataIFT inverse_wigner : ndarray4 C) : result (ndarray4 C) :=
  psi_multiply dataIFT (np_conj4 inverse_wigner).

(** line 166 *)
Definition wdd_Psi_Wigner (dataIFT inverse_wigner : ndarray4 C) : result (ndarray4 C) :=
  p <- wdd_product dataIFT inverse_wigner ;;
  pu_sparse4D E p (np_abs_sq4 inverse_wigner).

(** lines 167-168, [Psi_Wigner[1 + int(wig_shape[0]/2), 1 + int(wig_shape[1]/2), :, :]];
    for a length [n], [int(n/2)] is the integer quotient *)
Definition wdd_trotter_slice (Psi_Wigner : ndarray4 C) : result (ndarray2 C) :=
  let wig_shape := shape4 Psi_Wigner in
  let '(w0, w1, _, _) := wig_shape in
  getslice_first Psi_Wigner (1 + w0 / 2) (1 + w1 / 2).

(** The local variables of [wdd] once line 167 has run. *)
Record wdd_locals : Type := {
  electron_beam : ndarray2 C;
  diffractogram_intensity : R;
  mainbeam_intensity : R;
  intensity_changer : R;
  wigner_beam : ndarray4 C;
  dataFT : ndarray4 C;
  dataIFT : ndarray4 C;
  inverse_wigner : ndarray4 C;
  Psi_Wigner : ndarray4 C;
  wig_shape : nat * nat * nat * nat
}.

(** lines 156-167 *)
Definition wdd_body (data4D : ndarray4 R) (aperture_mrad voltage : R)
    (image_size : nat * nat) (calibration_pm : R) : result wdd_locals :=
  let image_y := fst image_size in
  let image_x := snd image_size in
  electron_beam <- wdd_electron_beam aperture_mrad voltage image_x image_y calibration_pm ;;
  let diffractogram_intensity := wdd_diffractogram_intensity data4D in
  let mainbeam_intensity := wdd_mainbeam_intensity electron_beam in
  let intensity_changer := wdd_intensity_changer electron_beam data4D in
  wigner_beam <- fft_wigner_probe aperture_mrad voltage (image_x, image_y)
                   calibration_pm intensity_changer ;;
  dataFT <- wdd_dataFT data4D ;;
  dataIFT <- wdd_dataIFT dataFT ;;
  inverse_wigner <- wdd_inverse_wigner wigner_beam ;;
  Psi_Wigner <- wdd_Psi_Wigner dataIFT inverse_wigner ;;
  let wig_shape := shape4 Psi_Wigner in
  Ok {| electron_beam := electron_beam;
        diffractogram_intensity := diffractogram_intensity;
        mainbeam_intensity := mainbeam_intensity;
        intensity_changer := intensity_changer;
        wigner_beam := wigner_beam;
        dataFT := dataFT;
        dataIFT := dataIFT;
        inverse_wigner := inverse_wigner;
        Psi_Wigner := Psi_Wigner;
        wig_shape := wig_shape |}.

(** line 168, in Python's order of evaluation: the subscript, then the name
    [test_beam], then [np.multiply], then [np.fft.fft2]. *)
Definition wdd_line168 (Psi_Wigner : ndarray4 C) : result (ndarray2 C) :=
  slice <- wdd_trotter_slice Psi_Wigner ;;
  o <- load_global "test_beam" ;;
  test_beam <- as_ndarray2 o ;;
  m <- np_multiply slice test_beam ;;
  np_fft2_2d E m.

Definition wdd (data4D : ndarray4 R) (aperture_mrad voltage : R)
    (image_size : nat * nat) (calibration_pm : R) : result (ndarray2 C) :=
  f <- wdd_body data4D aperture_mrad voltage image_size calibration_pm ;;
  wigner_deconv <- wdd_line168 (Psi_Wigner f) ;;
  Ok wigner_deconv.

End Program.

(** * The specification's reading

    Definitions that follow the words of the specification, to be compared
    with the ones above that follow the code. *)

(** The axes of the Measured Dataset, indexed
    [(scan_y, scan_x, det_y, det_x)]. *)
Definition spec_scan_axes : nat * nat := (0, 1)%nat.
Definition spec_detector_axes : nat * nat := (2, 3)%nat.
(** The frequency axes of the Wigner Distribution Tensor: its first two. *)
Definition spec_frequency_axes : nat * nat := (0, 1)%nat.

(** The sum of all the entries of the dataset. *)
Definition total_intensity (data4D : ndarray4 R) : R :=
  let '(n0, n1, n2, n3) := shape4 data4D in
  rsum n0 (fun i => rsum n1 (fun j =>
     rsum n2 (fun k => rsum n3 (fun l => at4 data4D i j k l)))).

(** Step 2 as worded: the diffraction intensity summed over the detector
    frame, averaged over the scan positions. *)
Definition spec_mean_diffraction (data4D : ndarray4 R) : R :=
  let '(n0, n1, n2, n3) := shape4 data4D in
  rsum n0 (fun i => rsum n1 (fun j =>
     rsum n2 (fun k => rsum n3 (fun l => at4 data4D i j k l))))
  / INR (n0 * n1).

(** Sum of the squared magnitudes of the probe. *)
Definition spec_probe_energy (probe : ndarray2 C) : R :=
  let '(n0, n1) := shape2 probe in
  rsum n0 (fun i => rsum n1 (fun j =>
     Re (at2 probe i j) * Re (at2 probe i j) + Im (at2 probe i j) * Im (at2 probe i j))).

Definition spec_normalization (probe : ndarray2 C) (data4D : ndarray4 R) : R :=
  sqrt (spec_probe_energy probe / spec_mean_diffraction data4D).

(** Steps 4, 5 and 6 as worded. *)
Definition spec_step4 (E : collaborators) (data4D : ndarray4 R) : result (ndarray4 C) :=
  t <- np_fft2 E (map4 RtoC data4D) spec_detector_axes ;;
  np_fftshift E t spec_detector_axes.
Definition spec_step5 (E : collaborators) (step4 : ndarray4 C) : result (ndarray4 C) :=
  t <- np_ifft2 E step4 spec_scan_axes ;;
  np_ifftshift E t spec_scan_axes.
Definition spec_step6 (E : collaborators) (wigner : ndarray4 C) : result (ndarray4 C) :=
  t <- np_ifft2 E wigner spec_frequency_axes ;;
  np_ifftshift E t spec_frequency_axes.

(** Step 7 as worded: the Pointwise Conjugate Multiplier applied to the
    Trotter-domain dataset and the Inverse Wigner Tensor, then sparsified. *)
Definition spec_step7 (E : collaborators) (dataIFT inverse_wigner : ndarray4 C)
  : result (ndarray4 C) :=
  p <- psi_multiply dataIFT inverse_wigner ;;
  pu_sparse4D E p (np_abs_sq4 inverse_wigner).

(** Step 8 as worded: index [center + 1] along axes 2 and 3, the other two
    axes ranging fully. *)
Definition spec_step8 (Psi_Wigner : ndarray4 C) : result (ndarray2 C) :=
  let '(_, _, w2, w3) := shape4 Psi_Wigner in
  getslice_last Psi_Wigner (1 + w2 / 2) (1 + w3 / 2).

(** Modelled from the spec: [gp.make_probe] (module [beam.gen_probe] of the
    package) is missing from the source.  Its interface is
    [(aperture_angle, voltage, width, height, calibration) -> ProbeWavefunction],
    a deterministic pure function of its parameters that returns a complex
    2D tensor of the requested (width, height).  The values of the tensor
    are left open ([pixels]); any other argument list is a [TypeError]. *)
Definition make_probe_spec (pixels : R -> R -> nat -> nat -> R -> nat -> nat -> C)
    (args : list pyarg) : result (ndarray2 C) :=
  match args with
  | [AFloat aperture_angle; AFloat voltage; AInt width; AInt height; AFloat calibration] =>
      Ok (mk2 (width, height) (pixels aperture_angle voltage width height calibration))
  | _ => Err TypeError
  end.


Definition energy (a : ndarray2 C) : R :=
  let '(n0, n1) := shape2 a in
  rsum n0 (fun i => rsum n1 (fun j => Cabs (at2 a i j) ^ 2)).

(** No collaborator raises an exception of a class of the package's own. *)
Definition no_user_error {A : Type} (r : result A) : Prop :=
  forall cls, r <> Err (UserError cls).

Definition collaborators_raise_no_user_error (E : collaborators) : Prop :=
  (forall args, no_user_error (gp_make_probe E args))
  /\ (forall t m, no_user_error (pu_sparse4D E t m))
  /\ (forall a o, no_user_error (scnd_shift E a o))
  /\ (forall t ax, no_user_error (np_fft2 E t ax))
  /\ (forall t ax, no_user_error (np_ifft2 E t ax))
  /\ (forall t ax, no_user_error (np_fftshift E t ax))
  /\ (forall t ax, no_user_error (np_ifftshift E t ax))
  /\ (forall a, no_user_error (np_fft2_2d E a)).

(** * Concrete collaborators and inputs

    A [make_probe] that accepts the image size as two integers and as one
    tuple, with given pixel values; a sparsifier whose threshold lets
    every entry through; transforms and a shift that return their argument. *)
Definition bench_make_probe (pixels : nat -> nat -> C) (args : list pyarg)
  : result (ndarray2 C) :=
  match args with
  | [AFloat _; AFloat _; ATuple (w, h); AFloat _] => Ok (mk2 (w, h) pixels)
  | [AFloat _; AFloat _; AInt w; AInt h; AFloat _] => Ok (mk2 (w, h) pixels)
  | _ => Err TypeError
  end.

Definition bench (pixels : nat -> nat -> C) : collaborators :=
  {| gp_make_probe := bench_make_probe pixels;
     pu_sparse4D := fun t _ => Ok t;
     scnd_shift := fun a _ => Ok a;
     np_fft2 := fun t _ => Ok t;
     np_ifft2 := fun t _ => Ok t;
     np_fftshift := fun t _ => Ok t;
     np_ifftshift := fun t _ => Ok t;
     np_fft2_2d := fun a => Ok a |}.

(** The collaborators [E] with [make_probe] as the specification has it. *)
Definition with_spec_make_probe (pixels : R -> R -> nat -> nat -> R -> nat -> nat -> C)
    (E : collaborators) : collaborators :=
  {| gp_make_probe := make_probe_spec pixels;
     pu_sparse4D := pu_sparse4D E;
     scnd_shift := scnd_shift E;
     np_fft2 := np_fft2 E;
     np_ifft2 := np_ifft2 E;
     np_fftshift := np_fftshift E;
     np_ifftshift := np_ifftshift E;
     np_fft2_2d := np_fft2_2d E |}.

(** The collaborators of [bench] with a given interpolating shift. *)
Definition bench_with_shift (shift : ndarray2 C -> R * R -> result (ndarray2 C))
    (pixels : nat -> nat -> C) : collaborators :=
  {| gp_make_probe := bench_make_probe pixels;
     pu_sparse4D := fun t _ => Ok t;
     scnd_shift := shift;
     np_fft2 := fun t _ => Ok t;
     np_ifft2 := fun t _ => Ok t;
     np_fftshift := fun t _ => Ok t;
     np_ifftshift := fun t _ => Ok t;
     np_fft2_2d := fun a => Ok a |}.

Definition ones : nat -> nat -> C := fun _ _ => RtoC 1.
(** Pixels of value 2 in row 0 and 1 in the other rows. *)
Definition ramp : nat -> nat -> C :=
  fun i _ => RtoC (if Nat.eqb i 0 then 2 else 1).
Definition const4 {A : Type} (sh : nat * nat * nat * nat) (v : A) : ndarray4 A :=
  mk4 sh (fun _ _ _ _ => v).

(** A 3x3x3x3 array whose entry at [(i, j, k, l)] is [27 i + 9 j + 3 k + l]. *)
Definition coded3 : ndarray4 C :=
  mk4 (3, 3, 3, 3)%nat (fun i j k l => RtoC (INR (27 * i + 9 * j + 3 * k + l))).

(** * Shifts that do not wrap around

    What an interpolating shift with zero fill (scipy's [mode='constant'])
    does at integer offsets: entry [(i, j)] of the result is entry
    [(i - dx, j - dy)] of the argument, and 0 when that index is outside. *)
Definition entry_or_zero (a : ndarray2 C) (si sj : Z) : C :=
  let '(n0, n1) := shape2 a in
  if ((0 <=? si)%Z && (si <? Z.of_nat n0)%Z && (0 <=? sj)%Z && (sj <? Z.of_nat n1)%Z)
  then at2 a (Z.to_nat si) (Z.to_nat sj)
  else C0.

Definition shifted_entry (a : ndarray2 C) (dx dy : Z) (i j : nat) : C :=
  entry_or_zero a (Z.of_nat i - dx) (Z.of_nat j - dy).

Definition translates_with_zero_fill (E : collaborators) (P : ndarray2 C) : Prop :=
  forall dx dy : Z,
  exists M,
    scnd_shift E P (IZR dx, IZR dy) = Ok M
    /\ shape2 M = shape2 P
    /\ forall i j, (i < fst (shape2 P))%nat -> (j < snd (shape2 P))%nat ->
         at2 M i j = shifted_entry P dx dy i j.

Definition Cplus (a b : C) : C := mkC (Re a + Re b) (Im a + Im b).
Definition Cscale (r : R) (a : C) : C := mkC (r * Re a) (r * Im a).

(** A shift by bilinear interpolation with zero fill: an offset [k + f]
    with [k] an integer and [0 <= f < 1] mixes the translations by [k] and
    by [k + 1] with weights [1 - f] and [f], along each axis. *)
Definition linear_shift (a : ndarray2 C) (o : R * R) : result (ndarray2 C) :=
  let kx := Int_part (fst o) in
  let fx := frac_part (fst o) in
  let ky := Int_part (snd o) in
  let fy := frac_part (snd o) in
  Ok (mk2 (shape2 a) (fun i j =>
        Cplus (Cplus (Cscale ((1 - fx) * (1 - fy)) (shifted_entry a kx ky i j))
                     (Cscale (fx * (1 - fy)) (shifted_entry a (kx + 1) ky i j)))
              (Cplus (Cscale ((1 - fx) * fy) (shifted_entry a kx (ky + 1) i j))
                     (Cscale (fx * fy) (shifted_entry a (kx + 1) (ky + 1) i j))))).




(** The collaborators of [bench] with an interpolating shift that rejects
    its input, and with a [make_probe] that returns a probe of a fixed shape
    whatever size is requested. *)
Definition bench_rejecting_shift (pixels : nat -> nat -> C) : collaborators :=
  {| gp_make_probe := bench_make_probe pixels;
     pu_sparse4D := fun t _ => Ok t;
     scnd_shift := fun _ _ => Err TypeError;
     np_fft2 := fun t _ => Ok t;
     np_ifft2 := fun t _ => Ok t;
     np_fftshift := fun t _ => Ok t;
     np_ifftshift := fun t _ => Ok t;
     np_fft2_2d := fun a => Ok a |}.

Definition bench_fixed_probe (sh : nat * nat) (pixels : nat -> nat -> C)
  : collaborators :=
  {| gp_make_probe := fun _ => Ok (mk2 sh pixels);
     pu_sparse4D := fun t _ => Ok t;
     scnd_shift := fun a _ => Ok a;
     np_fft2 := fun t _ => Ok t;
     np_ifft2 := fun t _ => Ok t;
     np_fftshift := fun t _ => Ok t;
     np_ifftshift := fun t _ => Ok t;
     np_fft2_2d := fun a => Ok a |}.

(** * Properties *)

(** ** Loops *)

Lemma for_loop_app {S : Type} (l1 l2 : list nat) (s : S) body :
  for_loop (l1 ++ l2) s body = (s' <- for_loop l1 s body ;; for_loop l2 s' body).
Proof.
  revert s; induction l1 as [|i l1 IH]; intros s; simpl; [reflexivity|].
  destruct (body i s) as [s'|e]; simpl; [apply IH | reflexivity].
Qed.

(** Invariant rule for [for i in range(n)]: the invariant is indexed by the
    number of iterations already done. *)
Lemma for_range_inv {S : Type} (Inv : nat -> S -> Prop) (n : nat) (s : S) body :
  Inv 0%nat s ->
  (forall i s, (i < n)%nat -> Inv i s ->
     exists s', body i s = Ok s' /\ Inv (Datatypes.S i) s') ->
  exists s', for_range n s body = Ok s' /\ Inv n s'.
Proof.
  intros H0 Hstep. unfold for_range.
  induction n as [|n IH].
  - exists s. split; [reflexivity | assumption].
  - destruct IH as (s1 & Hrun & Hinv).
    { intros i s0 Hi. apply Hstep. lia. }
    rewrite seq_S, for_loop_app, Hrun. simpl.
    destruct (Hstep n s1 ltac:(lia) Hinv) as (s2 & Hb & Hinv2).
    rewrite Hb. simpl. exists s2. split; [reflexivity | assumption].
Qed.

Lemma bidx_in (n i : nat) : (i < n)%nat -> bidx n i = i.
Proof.
  unfold bidx. destruct (Nat.eqb_spec n 1); [lia | reflexivity].
Qed.

Lemma broadcast_dim_same (n : nat) : broadcast_dim n n = Ok n.
Proof. unfold broadcast_dim. now rewrite Nat.eqb_refl. Qed.

Lemma fits_same (n : nat) : fits n n = true.
Proof. unfold fits. now rewrite Nat.eqb_refl. Qed.

(** One execution of line 38. *)
Lemma psi_multiply_body (data_1 data_2 md : ndarray4 C) (n0 n1 n2 n3 ii jj : nat) :
  shape4 data_1 = (n0, n1, n2, n3) ->
  shape4 data_2 = (n0, n1, n2, n3) ->
  shape4 md = (n0, n1, n2, n3) ->
  (ii < n2)%nat -> (jj < n3)%nat ->
  exists md',
    (a <- getslice_last data_1 ii jj ;;
     b <- getslice_last data_2 ii jj ;;
     p <- np_multiply a (np_conj2 b) ;;
     setslice_last md ii jj p) = Ok md'
    /\ shape4 md' = (n0, n1, n2, n3)
    /\ forall i j k l, (i < n0)%nat -> (j < n1)%nat ->
         at4 md' i j k l =
           if Nat.eqb k ii && Nat.eqb l jj
           then Cmult (at4 data_1 i j ii jj) (Cconj (at4 data_2 i j ii jj))
           else at4 md i j k l.
Proof.
  intros H1 H2 Hm Hi Hj.
  unfold getslice_last, setslice_last, np_multiply. rewrite H1, H2, Hm.
  apply Nat.ltb_lt in Hi as Hi'. apply Nat.ltb_lt in Hj as Hj'.
  rewrite Hi', Hj'. cbn [andb bind shape2 np_conj2 map2].
  rewrite !broadcast_dim_same. cbn [bind shape2].
  rewrite !fits_same. cbn [andb].
  eexists. split; [reflexivity|]. split; [reflexivity|].
  intros i j k l Hi0 Hj0. cbn [at4 at2].
  rewrite (bidx_in n0 i), (bidx_in n1 j) by assumption.
  rewrite (bidx_in n0 i), (bidx_in n1 j) by assumption. reflexivity.
Qed.

(** What [psi_multiply] returns on arrays of one shape. *)
Lemma psi_multiply_spec (data_1 data_2 : ndarray4 C) :
  shape4 data_1 = shape4 data_2 ->
  exists m,
    psi_multiply data_1 data_2 = Ok m
    /\ shape4 m = shape4 data_1
    /\ forall i j k l, in_shape4 (shape4 data_1) i j k l ->
         at4 m i j k l = Cmult (at4 data_1 i j k l) (Cconj (at4 data_2 i j k l)).
Proof.
  intros Hsh. unfold psi_multiply.
  destruct (shape4 data_1) as [[[n0 n1] n2] n3] eqn:H1. symmetry in Hsh.
  set (prod := fun i j k l => Cmult (at4 data_1 i j k l) (Cconj (at4 data_2 i j k l))).
  destruct (for_range_inv
    (fun jj md => shape4 md = (n0, n1, n2, n3)
       /\ forall i j k l, (i < n0)%nat -> (j < n1)%nat ->
            at4 md i j k l =
              if Nat.ltb k n2 && Nat.ltb l jj then prod i j k l else C0)
    n3 (np_zeros4 (n0, n1, n2, n3))
    (fun jj md => for_range n2 md (fun ii md =>
       a <- getslice_last data_1 ii jj ;;
       b <- getslice_last data_2 ii jj ;;
       p <- np_multiply a (np_conj2 b) ;;
       setslice_last md ii jj p))) as (m & Hrun & Hm & Hval).
  - split; [reflexivity|]. intros i j k l _ _. cbn.
    now rewrite andb_false_r.
  - intros jj md0 Hjj [Hs0 Hv0].
    destruct (for_range_inv
      (fun ii md => shape4 md = (n0, n1, n2, n3)
         /\ forall i j k l, (i < n0)%nat -> (j < n1)%nat ->
              at4 md i j k l =
                if Nat.ltb k ii && Nat.eqb l jj then prod i j k l
                else at4 md0 i j k l)
      n2 md0
      (fun ii md =>
         a <- getslice_last data_1 ii jj ;;
         b <- getslice_last data_2 ii jj ;;
         p <- np_multiply a (np_conj2 b) ;;
         setslice_last md ii jj p)) as (m1 & Hrun1 & Hm1 & Hval1).
    + split; [assumption|]. intros; reflexivity.
    + intros ii md Hii [Hs Hv].
      destruct (psi_multiply_body data_1 data_2 md n0 n1 n2 n3 ii jj
                  H1 Hsh Hs Hii Hjj) as (md' & Hb & Hs' & Hv').
      exists md'. split; [exact Hb|]. split; [exact Hs'|].
      intros i j k l Hi Hj. rewrite Hv', Hv by assumption.
      destruct (Nat.eqb_spec k ii) as [->|Hk]; destruct (Nat.eqb_spec l jj) as [->|Hl];
        cbn [andb].
      * replace (Nat.ltb ii (S ii)) with true by (symmetry; apply Nat.ltb_lt; lia).
        reflexivity.
      * now rewrite !andb_false_r.
      * destruct (Nat.ltb_spec k ii), (Nat.ltb_spec k (S ii));
          try lia; reflexivity.
      * now rewrite !andb_false_r.
    + exists m1. split; [exact Hrun1|]. split; [exact Hm1|].
      intros i j k l Hi Hj. rewrite Hval1, Hv0 by assumption.
      destruct (Nat.ltb_spec k n2); cbn [andb]; [|reflexivity].
      destruct (Nat.eqb_spec l jj) as [->|Hl].
      * replace (Nat.ltb jj (S jj)) with true by (symmetry; apply Nat.ltb_lt; lia).
        reflexivity.
      * destruct (Nat.ltb_spec l jj), (Nat.ltb_spec l (S jj)); try lia; reflexivity.
  - exists m. split; [exact Hrun|]. split; [exact Hm|].
    intros i j k l (Hi & Hj & Hk & Hl). rewrite Hval by assumption.
    apply Nat.ltb_lt in Hk, Hl. now rewrite Hk, Hl.
Qed.

(** ** The name [test_beam] *)

Lemma test_beam_unbound : load_global "test_beam" = Err (NameError "test_beam").
Proof. reflexivity. Qed.

(** Line 168 raises on every [Psi_Wigner]: [IndexError] when an axis of
    length below 3 makes the subscript leave the array, [NameError]
    otherwise. *)
Lemma wdd_line168_raises (E : collaborators) (Psi_Wigner : ndarray4 C) :
  wdd_line168 E Psi_Wigner = Err IndexError
  \/ wdd_line168 E Psi_Wigner = Err (NameError "test_beam").
Proof.
  unfold wdd_line168, wdd_trotter_slice, getslice_first.
  destruct (shape4 Psi_Wigner) as [[[w0 w1] w2] w3].
  destruct (Nat.ltb (1 + w0 / 2) w0 && Nat.ltb (1 + w1 / 2) w1);
    [right | left]; reflexivity.
Qed.

(** C1 (refuted by the code): the entry point [wdd] never returns the
    Single-Side-Band Reconstruction.  Whatever the dataset, the optical
    parameters and the behaviour of the collaborators, the call ends in an
    exception: when lines 156-167 succeed, line 168 reads the name
    [test_beam], which neither [wdd] nor the module binds.  On a 3x3x3x3
    dataset of ones with image size (3, 3) the exception is that
    [NameError]. *)
Theorem wdd_always_raises (E : collaborators) (data4D : ndarray4 R)
    (aperture_mrad voltage : R) (image_size : nat * nat) (calibration_pm : R) :
  (exists e, wdd E data4D aperture_mrad voltage image_size calibration_pm = Err e)
  /\ (forall f,
       wdd_body E data4D aperture_mrad voltage image_size calibration_pm = Ok f ->
       wdd E data4D aperture_mrad voltage image_size calibration_pm = Err IndexError
       \/ wdd E data4D aperture_mrad voltage image_size calibration_pm
          = Err (NameError "test_beam"))
  /\ wdd (bench ones) (const4 (3, 3, 3, 3)%nat 1) 1 1 (3, 3)%nat 1
     = Err (NameError "test_beam").
Proof.
  assert (Hgen : forall r : result wdd_locals,
            (exists e, (f <- r ;; wigner_deconv <- wdd_line168 E (Psi_Wigner f) ;;
                        Ok wigner_deconv) = Err e)
            /\ (forall f, r = Ok f ->
                  (f <- r ;; wigner_deconv <- wdd_line168 E (Psi_Wigner f) ;;
                   Ok wigner_deconv) = Err IndexError
                  \/ (f <- r ;; wigner_deconv <- wdd_line168 E (Psi_Wigner f) ;;
                      Ok wigner_deconv) = Err (NameError "test_beam"))).
  { intros [f|e]; cbn [bind].
    - destruct (wdd_line168_raises E (Psi_Wigner f)) as [H|H]; rewrite H; cbn [bind].
      + split; [eexists; reflexivity|]. intros; now left.
      + split; [eexists; reflexivity|]. intros; now right.
    - split; [eexists; reflexivity|]. intros f H; discriminate H. }
  destruct (Hgen (wdd_body E data4D aperture_mrad voltage image_size calibration_pm))
    as [H1 H2].
  split; [exact H1|]. split; [exact H2|]. reflexivity.
Qed.

(** ** [fft_wigner_probe] *)

(** The shift offset of grid position [(x, y)], lines 100-102. *)
Lemma fft_wigner_probe_body_spec (E : collaborators) (P : ndarray2 C)
    (w h x y : nat) (wb : ndarray4 C) (M : ndarray2 C) :
  shape2 P = (w, h) ->
  shape4 wb = (w, h, w, h) ->
  (x < w)%nat -> (y < h)%nat ->
  scnd_shift E P (- (INR x - INR w / 2), - (INR y - INR h / 2)) = Ok M ->
  shape2 M = (w, h) ->
  exists wb',
    fft_wigner_probe_body E P w h x y wb = Ok wb'
    /\ shape4 wb' = (w, h, w, h)
    /\ forall i j k l, (i < w)%nat -> (j < h)%nat ->
         at4 wb' i j k l =
           if Nat.eqb k x && Nat.eqb l y
           then Cmult (Cconj (at2 P i j)) (at2 M i j)
           else at4 wb i j k l.
Proof.
  intros HP Hwb Hx Hy HS HSs.
  unfold fft_wigner_probe_body. rewrite HS. cbn [bind].
  unfold np_multiply, setslice_last, np_conj2. cbn [shape2 map2].
  rewrite HP, HSs, Hwb, !broadcast_dim_same. cbn [bind shape2].
  apply Nat.ltb_lt in Hx as Hx'. apply Nat.ltb_lt in Hy as Hy'.
  rewrite Hx', Hy', !fits_same. cbn [andb].
  eexists. split; [reflexivity|]. split; [reflexivity|].
  intros i j k l Hi Hj. cbn [at4 at2].
  rewrite (bidx_in w i), (bidx_in h j) by assumption.
  rewrite (bidx_in w i), (bidx_in h j) by assumption. reflexivity.
Qed.

(** What [fft_wigner_probe] returns when the probe has the requested shape
    and the interpolating shift returns, at the offsets of the grid, arrays
    of the shape of its argument. *)
Lemma fft_wigner_probe_entries (E : collaborators) (aperture_mrad voltage : R)
    (image_size : nat * nat) (calibration_pm intensity_param : R) (tb : ndarray2 C) :
  let image_y := fst image_size in
  let image_x := snd image_size in
  let P := scale_probe tb intensity_param in
  fft_wigner_probe_tb E aperture_mrad voltage image_x image_y calibration_pm = Ok tb ->
  shape2 tb = (image_x, image_y) ->
  (forall x y, (x < image_x)%nat -> (y < image_y)%nat ->
     exists M,
       scnd_shift E P (- (INR x - INR image_x / 2), - (INR y - INR image_y / 2)) = Ok M
       /\ shape2 M = (image_x, image_y)) ->
  exists W,
    fft_wigner_probe E aperture_mrad voltage image_size calibration_pm intensity_param = Ok W
    /\ shape4 W = (image_x, image_y, image_x, image_y)
    /\ forall x y, (x < image_x)%nat -> (y < image_y)%nat ->
       exists M,
         scnd_shift E P (- (INR x - INR image_x / 2), - (INR y - INR image_y / 2)) = Ok M
         /\ forall i j, (i < image_x)%nat -> (j < image_y)%nat ->
              at4 W i j x y = Cmult (Cconj (at2 P i j)) (at2 M i j).
Proof.
  intros h w P Htb Hsh Hshift.
  unfold fft_wigner_probe. fold h w. rewrite Htb. cbn [bind]. fold P.
  assert (HP : shape2 P = (w, h)) by exact Hsh.
  set (off := fun x y : nat => (- (INR x - INR w / 2), - (INR y - INR h / 2))).
  set (shifted := fun x y =>
         match scnd_shift E P (off x y) with Ok M => M | Err _ => P end).
  assert (Hshifted : forall x y, (x < w)%nat -> (y < h)%nat ->
             scnd_shift E P (off x y) = Ok (shifted x y)
             /\ shape2 (shifted x y) = (w, h)).
  { intros x y Hx Hy. unfold shifted.
    destruct (Hshift x y Hx Hy) as (M & HS & HSs). fold (off x y) in HS.
    now rewrite HS. }
  set (entry := fun i j k l => Cmult (Cconj (at2 P i j)) (at2 (shifted k l) i j)).
  destruct (for_range_inv
    (fun x wb => shape4 wb = (w, h, w, h)
       /\ forall i j k l, (i < w)%nat -> (j < h)%nat ->
            at4 wb i j k l =
              if Nat.ltb k x && Nat.ltb l h then entry i j k l else C0)
    w (np_zeros4 (w, h, w, h))
    (fun rows_x wb => for_range h wb (fun rows_y wb =>
       fft_wigner_probe_body E P w h rows_x rows_y wb))) as (W & Hrun & HW & Hval).
  - split; [reflexivity|]. intros; reflexivity.
  - intros x wb0 Hx [Hs0 Hv0].
    destruct (for_range_inv
      (fun y wb => shape4 wb = (w, h, w, h)
         /\ forall i j k l, (i < w)%nat -> (j < h)%nat ->
              at4 wb i j k l =
                if Nat.eqb k x && Nat.ltb l y then entry i j k l
                else at4 wb0 i j k l)
      h wb0
      (fun rows_y wb => fft_wigner_probe_body E P w h x rows_y wb))
      as (wb1 & Hrun1 & Hs1 & Hv1).
    + split; [assumption|]. intros. now rewrite andb_false_r.
    + intros y wb Hy [Hs Hv].
      destruct (Hshifted x y Hx Hy) as [HS HSs].
      destruct (fft_wigner_probe_body_spec E P w h x y wb (shifted x y)
                  HP Hs Hx Hy HS HSs) as (wb' & Hb & Hs' & Hv').
      exists wb'. split; [exact Hb|]. split; [exact Hs'|].
      intros i j k l Hi Hj. rewrite Hv', Hv by assumption.
      destruct (Nat.eqb_spec k x) as [->|Hk]; cbn [andb]; [|reflexivity].
      destruct (Nat.eqb_spec l y) as [->|Hl].
      * replace (Nat.ltb y (S y)) with true by (symmetry; apply Nat.ltb_lt; lia).
        reflexivity.
      * destruct (Nat.ltb_spec l y), (Nat.ltb_spec l (S y)); try lia; reflexivity.
    + exists wb1. split; [exact Hrun1|]. split; [exact Hs1|].
      intros i j k l Hi Hj. rewrite Hv1, Hv0 by assumption.
      destruct (Nat.eqb_spec k x) as [->|Hk]; cbn [andb].
      * replace (Nat.ltb x (S x)) with true by (symmetry; apply Nat.ltb_lt; lia).
        cbn [andb]. destruct (Nat.ltb_spec l h); [reflexivity|].
        rewrite andb_false_r. reflexivity.
      * destruct (Nat.ltb_spec k x), (Nat.ltb_spec k (S x)); try lia; reflexivity.
  - exists W. split; [exact Hrun|]. split; [exact HW|].
    intros x y Hx Hy. exists (shifted x y). split; [now apply Hshifted|].
    intros i j Hi Hj. rewrite Hval by assumption.
    apply Nat.ltb_lt in Hx, Hy. now rewrite Hx, Hy.
Qed.

(** ** Sums *)

Lemma rsum_ext (n : nat) (f g : nat -> R) :
  (forall i, (i < n)%nat -> f i = g i) -> rsum n f = rsum n g.
Proof.
  induction n as [|n IH]; intros H; simpl; [reflexivity|].
  rewrite IH by (intros; apply H; lia). rewrite H by lia. reflexivity.
Qed.

Lemma rsum_scal (n : nat) (f : nat -> R) (c : R) :
  rsum n (fun i => f i * c) = rsum n f * c.
Proof. induction n as [|n IH]; simpl; [ring | rewrite IH; ring]. Qed.


Lemma rsum_nonneg (n : nat) (f : nat -> R) :
  (forall i, (i < n)%nat -> 0 <= f i) -> 0 <= rsum n f.
Proof.
  induction n as [|n IH]; intros H; simpl; [lra|].
  specialize (IH ltac:(intros; apply H; lia)). specialize (H n ltac:(lia)). lra.
Qed.

Lemma rsum_plus (n : nat) (f g : nat -> R) :
  rsum n (fun i => f i + g i) = rsum n f + rsum n g.
Proof. induction n as [|n IH]; simpl; [ring | rewrite IH; ring]. Qed.

(** A sum of non-negative terms one of which is positive is positive. *)
Lemma rsum_pos (n : nat) (f : nat -> R) (i : nat) :
  (forall k, (k < n)%nat -> 0 <= f k) -> (i < n)%nat -> 0 < f i -> 0 < rsum n f.
Proof.
  induction n as [|n IH]; intros Hnn Hi Hpos; [lia|]. simpl.
  assert (0 <= rsum n f) by (apply rsum_nonneg; intros; apply Hnn; lia).
  destruct (Nat.eq_dec i n) as [->|Hne]; [lra|].
  assert (0 < rsum n f) by (apply IH; [intros; apply Hnn; lia | lia | exact Hpos]).
  specialize (Hnn n ltac:(lia)). lra.
Qed.

(** ** Complex numbers *)

Lemma Cabs_sq (z : C) : Cabs z ^ 2 = Re z * Re z + Im z * Im z.
Proof.
  unfold Cabs. simpl. rewrite Rmult_1_r. apply sqrt_def. nra.
Qed.

Lemma Cabs_nonneg (z : C) : 0 <= Cabs z.
Proof. unfold Cabs. apply sqrt_pos. Qed.

Lemma Cconj_involutive (z : C) : Cconj (Cconj z) = z.
Proof. destruct z as [a b]. unfold Cconj. simpl. now rewrite Ropp_involutive. Qed.



(** [z * conj(z)] is the real number [|z|^2]. *)
Lemma Cmult_conj_self (z : C) :
  Cmult z (Cconj z) = RtoC (Re z * Re z + Im z * Im z).
Proof. unfold Cmult, Cconj, RtoC. simpl. f_equal; ring. Qed.


Lemma C_nonzero_abs_sq (z : C) : z <> C0 -> 0 < Cabs z ^ 2.
Proof.
  intros Hz. rewrite Cabs_sq. destruct z as [a b]. simpl.
  assert (a <> 0 \/ b <> 0) as [H|H].
  { destruct (Req_dec a 0) as [->|Ha]; [|now left].
    destruct (Req_dec b 0) as [->|Hb]; [|now right].
    exfalso. apply Hz. reflexivity. }
  - assert (0 < a * a) by nra. nra.
  - assert (0 < b * b) by nra. nra.
Qed.

(** ** The normalization scalar, lines 159-161 *)

Lemma mainbeam_intensity_energy (electron_beam : ndarray2 C) :
  wdd_mainbeam_intensity electron_beam = spec_probe_energy electron_beam.
Proof.
  unfold wdd_mainbeam_intensity, np_sum2, np_abs_sq2, spec_probe_energy, map2.
  cbn [shape2 at2]. destruct (shape2 electron_beam) as [n0 n1].
  apply rsum_ext; intros i _. apply rsum_ext; intros j _. apply Cabs_sq.
Qed.

(** Line 159 computes the total intensity divided by the number of detector
    pixels. *)
Lemma diffractogram_intensity_total (data4D : ndarray4 R) :
  wdd_diffractogram_intensity data4D =
    let '(_, _, n2, n3) := shape4 data4D in
    total_intensity data4D / INR (n2 * n3).
Proof.
  unfold wdd_diffractogram_intensity, np_sum2, np_mean_axes23, total_intensity.
  destruct (shape4 data4D) as [[[n0 n1] n2] n3]. cbn [shape2 at2].
  unfold Rdiv. rewrite <- rsum_scal. apply rsum_ext; intros i _.
  rewrite <- rsum_scal. reflexivity.
Qed.

(** C4, counterexample: one scan position, a detector of 1 x 2 pixels that
    each count 1, and a probe of two pixels of value 1.  Line 161 gives
    [sqrt (2 / 1)], the worded formula [sqrt (2 / 2)]. *)
Lemma intensity_changer_scan_mean_counterexample :
  wdd_intensity_changer (mk2 (2, 1)%nat ones) (const4 (1, 1, 1, 2)%nat 1) = sqrt 2
  /\ spec_normalization (mk2 (2, 1)%nat ones) (const4 (1, 1, 1, 2)%nat 1) = 1
  /\ sqrt 2 <> 1.
Proof.
  assert (Hsq : sqrt 2 <> 1).
  { intros H. pose proof (sqrt_def 2 ltac:(lra)) as Hd. rewrite H in Hd. lra. }
  split; [|split; [|exact Hsq]].
  - unfold wdd_intensity_changer.
    rewrite mainbeam_intensity_energy, diffractogram_intensity_total.
    unfold spec_probe_energy, total_intensity, const4, ones, RtoC. simpl.
    f_equal. field.
  - unfold spec_normalization, spec_mean_diffraction, spec_probe_energy,
      const4, ones, RtoC. simpl.
    transitivity (sqrt 1); [f_equal; field | apply sqrt_1].
Qed.

Lemma mainbeam_intensity_pos (electron_beam : ndarray2 C) (i j : nat) :
  (i < fst (shape2 electron_beam))%nat ->
  (j < snd (shape2 electron_beam))%nat ->
  at2 electron_beam i j <> C0 ->
  0 < wdd_mainbeam_intensity electron_beam.
Proof.
  unfold wdd_mainbeam_intensity, np_sum2, np_abs_sq2, map2. cbn [shape2 at2].
  destruct (shape2 electron_beam) as [n0 n1]. cbn [fst snd]. intros Hi Hj Hz.
  assert (Hnn : forall a b, 0 <= Cabs (at2 electron_beam a b) ^ 2).
  { intros a b. rewrite Cabs_sq. nra. }
  apply (rsum_pos n0 _ i); [| exact Hi |].
  - intros k _. apply rsum_nonneg. intros; apply Hnn.
  - apply (rsum_pos n1 _ j); [intros; apply Hnn | exact Hj |].
    now apply C_nonzero_abs_sq.
Qed.

(** ** Exceptions the file can raise *)

Lemma no_user_error_ok {A : Type} (a : A) : no_user_error (Ok a).
Proof. intros cls H; discriminate H. Qed.

Lemma no_user_error_bind {A B : Type} (m : result A) (k : A -> result B) :
  no_user_error m -> (forall a, no_user_error (k a)) -> no_user_error (bind m k).
Proof.
  intros Hm Hk cls. destruct m as [a|e]; cbn [bind]; [apply Hk|].
  intros H. apply (Hm cls). now inversion H.
Qed.

Lemma no_user_error_for_loop {S : Type} (l : list nat) (s : S) body :
  (forall i s, no_user_error (body i s)) -> no_user_error (for_loop l s body).
Proof.
  intros Hb. revert s. induction l as [|i l IH]; intros s; cbn [for_loop].
  - apply no_user_error_ok.
  - apply no_user_error_bind; [apply Hb | intros; apply IH].
Qed.

Lemma no_user_error_broadcast_dim (a b : nat) : no_user_error (broadcast_dim a b).
Proof.
  unfold broadcast_dim. intros cls.
  destruct (Nat.eqb a b), (Nat.eqb a 1), (Nat.eqb b 1); discriminate.
Qed.

Lemma no_user_error_np_multiply (a b : ndarray2 C) : no_user_error (np_multiply a b).
Proof.
  unfold np_multiply. destruct (shape2 a), (shape2 b).
  apply no_user_error_bind; [apply no_user_error_broadcast_dim|]. intros.
  apply no_user_error_bind; [apply no_user_error_broadcast_dim|]. intros.
  apply no_user_error_ok.
Qed.

Lemma no_user_error_getslice_last {A : Type} (a : ndarray4 A) (k l : nat) :
  no_user_error (getslice_last a k l).
Proof.
  unfold getslice_last. destruct (shape4 a) as [[[n0 n1] n2] n3].
  intros cls. destruct (Nat.ltb k n2 && Nat.ltb l n3); discriminate.
Qed.

Lemma no_user_error_getslice_first {A : Type} (a : ndarray4 A) (i j : nat) :
  no_user_error (getslice_first a i j).
Proof.
  unfold getslice_first. destruct (shape4 a) as [[[n0 n1] n2] n3].
  intros cls. destruct (Nat.ltb i n0 && Nat.ltb j n1); discriminate.
Qed.

Lemma no_user_error_setslice_last {A : Type} (a : ndarray4 A) (k l : nat) (v : ndarray2 A) :
  no_user_error (setslice_last a k l v).
Proof.
  unfold setslice_last. destruct (shape4 a) as [[[n0 n1] n2] n3], (shape2 v) as [v0 v1].
  intros cls.
  destruct (Nat.ltb k n2 && Nat.ltb l n3), (fits v0 n0 && fits v1 n1); discriminate.
Qed.

Lemma no_user_error_psi_multiply (data_1 data_2 : ndarray4 C) :
  no_user_error (psi_multiply data_1 data_2).
Proof.
  unfold psi_multiply, for_range. destruct (shape4 data_1) as [[[n0 n1] n2] n3].
  apply no_user_error_for_loop; intros jj md.
  apply no_user_error_for_loop; intros ii md'.
  apply no_user_error_bind; [apply no_user_error_getslice_last|]. intros a.
  apply no_user_error_bind; [apply no_user_error_getslice_last|]. intros b.
  apply no_user_error_bind; [apply no_user_error_np_multiply|]. intros p.
  apply no_user_error_setslice_last.
Qed.

Lemma no_user_error_fft_wigner_probe (E : collaborators) a v size c ip :
  collaborators_raise_no_user_error E ->
  no_user_error (fft_wigner_probe E a v size c ip).
Proof.
  intros (Hmp & _ & Hsh & _).
  unfold fft_wigner_probe, fft_wigner_probe_tb, for_range.
  apply no_user_error_bind; [apply Hmp|]. intros tb.
  apply no_user_error_for_loop; intros x wb.
  apply no_user_error_for_loop; intros y wb'.
  unfold fft_wigner_probe_body.
  apply no_user_error_bind; [apply Hsh|]. intros m.
  apply no_user_error_bind; [apply no_user_error_np_multiply|]. intros p.
  apply no_user_error_setslice_last.
Qed.

Lemma no_user_error_wdd (E : collaborators) data4D a v size c :
  collaborators_raise_no_user_error E ->
  no_user_error (wdd E data4D a v size c).
Proof.
  intros HE. pose proof HE as (Hmp & Hsp & Hsh & Hf & Hi & Hfs & His & Hf2).
  unfold wdd. apply no_user_error_bind.
  - unfold wdd_body, wdd_electron_beam.
    apply no_user_error_bind; [apply Hmp|]. intros eb.
    apply no_user_error_bind; [now apply no_user_error_fft_wigner_probe|]. intros wb.
    apply no_user_error_bind.
    { unfold wdd_dataFT. apply no_user_error_bind; [apply Hf | intros; apply Hfs]. }
    intros dft. apply no_user_error_bind.
    { unfold wdd_dataIFT. apply no_user_error_bind; [apply Hi | intros; apply His]. }
    intros dift. apply no_user_error_bind.
    { unfold wdd_inverse_wigner.
      apply no_user_error_bind; [apply Hi | intros; apply His]. }
    intros iw. apply no_user_error_bind.
    { unfold wdd_Psi_Wigner, wdd_product.
      apply no_user_error_bind; [apply no_user_error_psi_multiply | intros; apply Hsp]. }
    intros pw. apply no_user_error_ok.
  - intros f. apply no_user_error_bind; [|intros; apply no_user_error_ok].
    unfold wdd_line168.
    apply no_user_error_bind.
    { unfold wdd_trotter_slice. destruct (shape4 (Psi_Wigner f)) as [[[w0 w1] w2] w3].
      apply no_user_error_getslice_first. }
    intros sl. rewrite test_beam_unbound. intros cls H; discriminate H.
Qed.

(** C5 (amended): [wdd.py] has no check of the mean diffraction intensity
    and no [InvalidInputError]: unless a collaborator raises an exception
    class of the package's own, [wdd] raises none, whatever the dataset.
    For every dataset whose diffractogram intensity (line 159) is strictly
    positive and every probe with a non-zero pixel, the normalization scalar
    of line 161 is strictly positive. *)
Theorem normalization_unchecked (E : collaborators) (data4D : ndarray4 R)
    (aperture_mrad voltage : R) (image_size : nat * nat) (calibration_pm : R)
    (electron_beam : ndarray2 C) :
  collaborators_raise_no_user_error E ->
  no_user_error (wdd E data4D aperture_mrad voltage image_size calibration_pm)
  /\ (0 < wdd_diffractogram_intensity data4D ->
      (exists i j, (i < fst (shape2 electron_beam))%nat
                   /\ (j < snd (shape2 electron_beam))%nat
                   /\ at2 electron_beam i j <> C0) ->
      0 < wdd_intensity_changer electron_beam data4D).
Proof.
  intros HE. split; [now apply no_user_error_wdd|].
  intros Hd (i & j & Hi & Hj & Hz). unfold wdd_intensity_changer.
  apply sqrt_lt_R0. apply Rdiv_lt_0_compat; [|exact Hd].
  now apply (mainbeam_intensity_pos electron_beam i j).
Qed.

Lemma bench_raise_no_user_error (pixels : nat -> nat -> C) :
  collaborators_raise_no_user_error (bench pixels).
Proof.
  unfold collaborators_raise_no_user_error, bench; cbn.
  repeat split; try (intros; apply no_user_error_ok).
  intros args cls. unfold bench_make_probe.
  repeat (match goal with
          | |- context [match ?x with _ => _ end] => destruct x
          end; try discriminate).
Qed.

Lemma normalization_unchecked_witness :
  no_user_error (wdd (bench ones) (const4 (1, 1, 1, 1)%nat 1) 1 1 (1, 1)%nat 1)
  /\ 0 < wdd_intensity_changer (mk2 (1, 1)%nat ones) (const4 (1, 1, 1, 1)%nat 1).
Proof.
  destruct (normalization_unchecked (bench ones) (const4 (1, 1, 1, 1)%nat 1)
              1 1 (1, 1)%nat 1 (mk2 (1, 1)%nat ones)
              (bench_raise_no_user_error ones)) as [Hn Hp].
  split; [exact Hn|]. apply Hp.
  - rewrite diffractogram_intensity_total. unfold total_intensity. simpl. lra.
  - exists 0%nat, 0%nat. cbn. repeat split; try lia.
    unfold ones, RtoC, C0. intros H. inversion H. lra.
Defined.

(** C5, counterexample: a dataset of zeros.  Lines 156-167 run to the end
    with a diffractogram intensity of 0, and the call then ends in the
    [NameError] of line 168, not in [InvalidInputError]. *)
Lemma zero_intensity_counterexample :
  exists f,
    wdd_body (bench ones) (const4 (3, 3, 3, 3)%nat 0) 1 1 (3, 3)%nat 1 = Ok f
    /\ diffractogram_intensity f = 0
    /\ wdd (bench ones) (const4 (3, 3, 3, 3)%nat 0) 1 1 (3, 3)%nat 1
       = Err (NameError "test_beam").
Proof.
  eexists. split; [reflexivity|]. split.
  - cbn [diffractogram_intensity]. rewrite diffractogram_intensity_total.
    unfold total_intensity. simpl. lra.
  - reflexivity.
Qed.

(** ** [psi_multiply] *)

(** C6: on two complex 4D arrays of one shape, [psi_multiply] returns an
    array of that shape whose entry at every index is the entry of the first
    times the conjugate of the entry of the second, each entry depending on
    the two entries at its own index only; [psi_multiply(A, A)] has zero
    imaginary part and non-negative real part [|A|^2] everywhere. *)
Theorem psi_multiply_elementwise (data_1 data_2 : ndarray4 C) :
  shape4 data_1 = shape4 data_2 ->
  (exists m,
     psi_multiply data_1 data_2 = Ok m
     /\ shape4 m = shape4 data_1
     /\ forall i j k l, in_shape4 (shape4 data_1) i j k l ->
          at4 m i j k l = Cmult (at4 data_1 i j k l) (Cconj (at4 data_2 i j k l)))
  /\ (exists m,
     psi_multiply data_1 data_1 = Ok m
     /\ forall i j k l, in_shape4 (shape4 data_1) i j k l ->
          Im (at4 m i j k l) = 0
          /\ 0 <= Re (at4 m i j k l)
          /\ Re (at4 m i j k l) = Cabs (at4 data_1 i j k l) ^ 2).
Proof.
  intros Hsh. split; [now apply psi_multiply_spec|].
  destruct (psi_multiply_spec data_1 data_1 eq_refl) as (m & Hm & _ & Hv).
  exists m. split; [exact Hm|]. intros i j k l Hin.
  rewrite (Hv i j k l Hin), Cmult_conj_self, Cabs_sq. cbn [Re Im RtoC].
  repeat split; nra.
Qed.

Lemma psi_multiply_elementwise_witness :
  exists m,
    psi_multiply (const4 (1, 1, 1, 1)%nat (mkC 1 2)) (const4 (1, 1, 1, 1)%nat (mkC 3 4))
      = Ok m
    /\ at4 m 0 0 0 0 = Cmult (mkC 1 2) (Cconj (mkC 3 4)).
Proof.
  destruct (psi_multiply_elementwise
              (const4 (1, 1, 1, 1)%nat (mkC 1 2)) (const4 (1, 1, 1, 1)%nat (mkC 3 4))
              eq_refl) as [(m & Hm & _ & Hv) _].
  exists m. split; [exact Hm|].
  apply (Hv 0 0 0 0)%nat. cbn. repeat split; lia.
Defined.

(** ** The Wigner Probe Synthesizer *)

(** ** Steps of [wdd] *)

(** C2 (amended): the slice of line 168 is taken at index
    [1 + int(n/2)] along each of axes 0 and 1 of [Psi_Wigner], with axes 2
    and 3 ranging fully (so it has the lengths of axes 2 and 3); the
    subscript is inside the array when axes 0 and 1 have length 3 at
    least, and raises [IndexError] otherwise. *)
Theorem trotter_slice_first_axes (Psi_Wigner : ndarray4 C) (n0 n1 n2 n3 : nat) :
  shape4 Psi_Wigner = (n0, n1, n2, n3) ->
  ((3 <= n0)%nat -> (3 <= n1)%nat ->
   exists s,
     wdd_trotter_slice Psi_Wigner = Ok s
     /\ shape2 s = (n2, n3)
     /\ forall k l, at2 s k l = at4 Psi_Wigner (1 + n0 / 2) (1 + n1 / 2) k l)
  /\ ((n0 < 3)%nat \/ (n1 < 3)%nat -> wdd_trotter_slice Psi_Wigner = Err IndexError).
Proof.
  intros Hsh. unfold wdd_trotter_slice, getslice_first. rewrite Hsh.
  pose proof (Nat.Div0.mul_div_le n0 2) as H0.
  pose proof (Nat.Div0.mul_div_le n1 2) as H1.
  pose proof (Nat.mul_succ_div_gt n0 2 ltac:(lia)) as G0.
  pose proof (Nat.mul_succ_div_gt n1 2 ltac:(lia)) as G1.
  split.
  - intros L0 L1.
    replace (Nat.ltb (1 + n0 / 2) n0) with true by (symmetry; apply Nat.ltb_lt; lia).
    replace (Nat.ltb (1 + n1 / 2) n1) with true by (symmetry; apply Nat.ltb_lt; lia).
    cbn [andb]. eexists. split; [reflexivity|]. split; reflexivity.
  - intros [L|L].
    + replace (Nat.ltb (1 + n0 / 2) n0) with false
        by (symmetry; apply Nat.ltb_ge; lia).
      reflexivity.
    + replace (Nat.ltb (1 + n1 / 2) n1) with false
        by (symmetry; apply Nat.ltb_ge; lia).
      now rewrite andb_false_r.
Qed.

Lemma trotter_slice_first_axes_witness :
  exists s,
    wdd_trotter_slice coded3 = Ok s
    /\ shape2 s = (3, 3)%nat
    /\ forall k l, at2 s k l = at4 coded3 (1 + 3 / 2) (1 + 3 / 2) k l.
Proof.
  destruct (trotter_slice_first_axes coded3 3 3 3 3 eq_refl) as [H _].
  apply H; lia.
Defined.

(** C2, counterexample: on the 3x3x3x3 array whose entry at [(i, j, k, l)] is
    [27 i + 9 j + 3 k + l], line 168 takes the slice [[72 + 3 k + l]] of
    axes 0 and 1 fixed at 2, the worded step 8 the slice [[27 i + 9 j + 8]]
    of axes 2 and 3 fixed at 2; they differ at position (0, 0). *)
Lemma trotter_slice_axes_counterexample :
  exists s t,
    wdd_trotter_slice coded3 = Ok s
    /\ spec_step8 coded3 = Ok t
    /\ at2 s 0 0 = RtoC 72
    /\ at2 t 0 0 = RtoC 8
    /\ at2 s 0 0 <> at2 t 0 0.
Proof.
  eexists. eexists. split; [reflexivity|]. split; [reflexivity|].
  assert (Hs : INR (27 * 2 + 9 * 2 + 3 * 0 + 0) = 72).
  { change (27 * 2 + 9 * 2 + 3 * 0 + 0)%nat with 72%nat.
    rewrite (INR_IZR_INZ 72). reflexivity. }
  assert (Ht : INR (27 * 0 + 9 * 0 + 3 * 2 + 2) = 8).
  { change (27 * 0 + 9 * 0 + 3 * 2 + 2)%nat with 8%nat.
    rewrite (INR_IZR_INZ 8). reflexivity. }
  cbn [at2 at4 coded3]. change (1 + 3 / 2)%nat with 2%nat.
  rewrite Hs, Ht. split; [reflexivity|]. split; [reflexivity|].
  unfold RtoC. intros H. inversion H. lra.
Qed.

(** C3 (amended): line 166 hands [psi_multiply] the conjugate of the Inverse
    Wigner Tensor, and [psi_multiply] conjugates its second argument again:
    on arrays of one shape the product that is sparsified is, elementwise,
    [dataIFT * inverse_wigner], the Inverse Wigner Tensor conjugated twice,
    that is not at all; the thresholding reference is its squared
    magnitude. *)
Theorem psi_wigner_product (E : collaborators) (dataIFT inverse_wigner : ndarray4 C) :
  shape4 dataIFT = shape4 inverse_wigner ->
  exists p,
    wdd_product dataIFT inverse_wigner = Ok p
    /\ shape4 p = shape4 dataIFT
    /\ (forall i j k l, in_shape4 (shape4 dataIFT) i j k l ->
          at4 p i j k l =
            Cmult (at4 dataIFT i j k l) (Cconj (Cconj (at4 inverse_wigner i j k l)))
          /\ at4 p i j k l = Cmult (at4 dataIFT i j k l) (at4 inverse_wigner i j k l))
    /\ wdd_Psi_Wigner E dataIFT inverse_wigner
       = pu_sparse4D E p (np_abs_sq4 inverse_wigner).
Proof.
  intros Hsh.
  destruct (psi_multiply_spec dataIFT (np_conj4 inverse_wigner) Hsh)
    as (p & Hp & Hs & Hv).
  exists p. unfold wdd_Psi_Wigner, wdd_product. rewrite Hp. cbn [bind].
  split; [reflexivity|]. split; [exact Hs|]. split; [|reflexivity].
  intros i j k l Hin. rewrite (Hv i j k l Hin). cbn [np_conj4 map4 at4].
  split; [reflexivity|]. now rewrite Cconj_involutive.
Qed.

Lemma psi_wigner_product_witness :
  exists p,
    wdd_product (const4 (1, 1, 1, 1)%nat (mkC 1 0)) (const4 (1, 1, 1, 1)%nat (mkC 0 1))
      = Ok p
    /\ at4 p 0 0 0 0 = Cmult (mkC 1 0) (mkC 0 1).
Proof.
  destruct (psi_wigner_product (bench ones)
              (const4 (1, 1, 1, 1)%nat (mkC 1 0)) (const4 (1, 1, 1, 1)%nat (mkC 0 1))
              eq_refl) as (p & Hp & _ & Hv & _).
  exists p. split; [exact Hp|].
  apply (Hv 0 0 0 0)%nat. cbn. repeat split; lia.
Defined.

(** C3, counterexample: one entry each, [dataIFT = 1] and
    [inverse_wigner = i], with a sparsifier that lets the entry through.
    Line 166 gives [1 * i = i]; the worded step 7,
    [1 * conj(i)], gives [-i]. *)
Lemma psi_wigner_conjugation_counterexample :
  exists p q,
    wdd_Psi_Wigner (bench ones)
      (const4 (1, 1, 1, 1)%nat (mkC 1 0)) (const4 (1, 1, 1, 1)%nat (mkC 0 1)) = Ok p
    /\ spec_step7 (bench ones)
      (const4 (1, 1, 1, 1)%nat (mkC 1 0)) (const4 (1, 1, 1, 1)%nat (mkC 0 1)) = Ok q
    /\ at4 p 0 0 0 0 = mkC 0 1
    /\ at4 q 0 0 0 0 = mkC 0 (-1)
    /\ at4 p 0 0 0 0 <> at4 q 0 0 0 0.
Proof.
  eexists. eexists. split; [reflexivity|]. split; [reflexivity|].
  cbn [at4 at2 const4 np_conj4 np_conj2 map4 map2 bidx Nat.eqb andb shape2].
  assert (Hp : Cmult (mkC 1 0) (Cconj (Cconj (mkC 0 1))) = mkC 0 1).
  { unfold Cmult, Cconj. cbn [Re Im]. f_equal; ring. }
  assert (Hq : Cmult (mkC 1 0) (Cconj (mkC 0 1)) = mkC 0 (-1)).
  { unfold Cmult, Cconj. cbn [Re Im]. f_equal; ring. }
  rewrite Hp, Hq. split; [reflexivity|]. split; [reflexivity|].
  intros H. inversion H. lra.
Qed.

(** The local variables of [wdd] at line 167, each in terms of the ones
    assigned before it. *)
Lemma wdd_body_inv (E : collaborators) (data4D : ndarray4 R)
    (aperture_mrad voltage : R) (image_size : nat * nat) (calibration_pm : R)
    (f : wdd_locals) :
  wdd_body E data4D aperture_mrad voltage image_size calibration_pm = Ok f ->
  wdd_electron_beam E aperture_mrad voltage (snd image_size) (fst image_size)
    calibration_pm = Ok (electron_beam f)
  /\ diffractogram_intensity f = wdd_diffractogram_intensity data4D
  /\ mainbeam_intensity f = wdd_mainbeam_intensity (electron_beam f)
  /\ intensity_changer f = wdd_intensity_changer (electron_beam f) data4D
  /\ fft_wigner_probe E aperture_mrad voltage (snd image_size, fst image_size)
       calibration_pm (intensity_changer f) = Ok (wigner_beam f)
  /\ wdd_dataFT E data4D = Ok (dataFT f)
  /\ wdd_dataIFT E (dataFT f) = Ok (dataIFT f)
  /\ wdd_inverse_wigner E (wigner_beam f) = Ok (inverse_wigner f)
  /\ wdd_Psi_Wigner E (dataIFT f) (inverse_wigner f) = Ok (Psi_Wigner f)
  /\ wig_shape f = shape4 (Psi_Wigner f).
Proof.
  unfold wdd_body.
  destruct (wdd_electron_beam E aperture_mrad voltage (snd image_size)
              (fst image_size) calibration_pm) as [eb|] eqn:H1; cbn [bind];
    [|discriminate].
  destruct (fft_wigner_probe E aperture_mrad voltage (snd image_size, fst image_size)
              calibration_pm (wdd_intensity_changer eb data4D)) as [wb|] eqn:H2;
    cbn [bind]; [|discriminate].
  destruct (wdd_dataFT E data4D) as [dft|] eqn:H3; cbn [bind]; [|discriminate].
  destruct (wdd_dataIFT E dft) as [dift|] eqn:H4; cbn [bind]; [|discriminate].
  destruct (wdd_inverse_wigner E wb) as [iw|] eqn:H5; cbn [bind]; [|discriminate].
  destruct (wdd_Psi_Wigner E dift iw) as [pw|] eqn:H6; cbn [bind]; [|discriminate].
  intros H. inversion H; subst f; clear H. cbn.
  repeat split; assumption.
Qed.

(** C9: in a run of [wdd] that reaches line 167, [dataFT] is the forward 2D
    FFT of the dataset over the detector axes followed by the centering
    shift over the same axes; [dataIFT] is the inverse 2D FFT of [dataFT]
    over the scan axes followed by the inverse centering shift over them;
    [inverse_wigner] is the inverse 2D FFT of the Wigner tensor over its
    first two axes followed by the inverse centering shift over them. *)
Theorem transforms_as_specified (E : collaborators) (data4D : ndarray4 R)
    (aperture_mrad voltage : R) (image_size : nat * nat) (calibration_pm : R)
    (f : wdd_locals) :
  wdd_body E data4D aperture_mrad voltage image_size calibration_pm = Ok f ->
  spec_step4 E data4D = Ok (dataFT f)
  /\ spec_step5 E (dataFT f) = Ok (dataIFT f)
  /\ spec_step6 E (wigner_beam f) = Ok (inverse_wigner f).
Proof.
  intros H. apply wdd_body_inv in H.
  destruct H as (_ & _ & _ & _ & _ & H4 & H5 & H6 & _).
  repeat split; assumption.
Qed.

Lemma transforms_as_specified_witness :
  exists f,
    wdd_body (bench ones) (const4 (3, 3, 3, 3)%nat 1) 1 1 (3, 3)%nat 1 = Ok f
    /\ spec_step4 (bench ones) (const4 (3, 3, 3, 3)%nat 1) = Ok (dataFT f)
    /\ spec_step5 (bench ones) (dataFT f) = Ok (dataIFT f)
    /\ spec_step6 (bench ones) (wigner_beam f) = Ok (inverse_wigner f).
Proof.
  eexists. split; [reflexivity|].
  eapply (transforms_as_specified (bench ones) (const4 (3, 3, 3, 3)%nat 1)
            1 1 (3, 3)%nat 1).
  reflexivity.
Defined.

(** C8 (refuted by the code): with [make_probe] as the specification has it,
    of five arguments, the call of line 158 in [wdd], which passes four
    arguments, the image size as one tuple, raises [TypeError], so that
    [wdd] raises it on every input; the call of line 95 in
    [fft_wigner_probe] passes the five arguments and returns a probe of
    shape [(image_x, image_y)]. *)
Theorem wdd_make_probe_call
    (pixels : R -> R -> nat -> nat -> R -> nat -> nat -> C) (E : collaborators)
    (data4D : ndarray4 R) (aperture_mrad voltage : R) (image_size : nat * nat)
    (calibration_pm : R) :
  let image_y := fst image_size in
  let image_x := snd image_size in
  wdd_electron_beam (with_spec_make_probe pixels E) aperture_mrad voltage
    image_x image_y calibration_pm = Err TypeError
  /\ wdd (with_spec_make_probe pixels E) data4D aperture_mrad voltage image_size
       calibration_pm = Err TypeError
  /\ fft_wigner_probe_tb (with_spec_make_probe pixels E) aperture_mrad voltage
       image_x image_y calibration_pm
     = Ok (mk2 (image_x, image_y)
             (pixels aperture_mrad voltage image_x image_y calibration_pm)).
Proof.
  cbv zeta. split; [reflexivity|]. split; reflexivity.
Qed.

(** ** The centre of the shift grid *)




(** For an odd length no position has shift offset 0. *)
Lemma odd_offset (c x : nat) : INR x - INR (2 * c + 1) / 2 <> 0.
Proof.
  intros H.
  assert (H2 : INR (2 * x) = INR (2 * c + 1)).
  { rewrite mult_INR. simpl (INR 2). lra. }
  apply INR_eq in H2. lia.
Qed.

(** * Further properties of the code *)

(** ** Loops that stop at an exception *)

Lemma for_loop_preserves {S : Type} (P : S -> Prop) (l : list nat) body :
  (forall i s s', body i s = Ok s' -> P s -> P s') ->
  forall s s', P s -> for_loop l s body = Ok s' -> P s'.
Proof.
  intros Hb. induction l as [|i l IH]; intros s s' Hs; cbn [for_loop].
  - intros H. inversion H. now subst.
  - destruct (body i s) as [s1|e] eqn:Hbi; cbn [bind]; [|discriminate].
    apply IH. exact (Hb i s s1 Hbi Hs).
Qed.

(** The loop raises [e] when its first [k] iterations keep an invariant
    and iteration [k] raises [e] under it. *)
Lemma for_range_fail {S : Type} (Inv : nat -> S -> Prop) (n k : nat) (s : S) body e :
  (k < n)%nat ->
  Inv 0%nat s ->
  (forall i s, (i < k)%nat -> Inv i s ->
     exists s', body i s = Ok s' /\ Inv (Datatypes.S i) s') ->
  (forall s, Inv k s -> body k s = Err e) ->
  for_range n s body = Err e.
Proof.
  intros Hk H0 Hstep Hfail.
  destruct (for_range_inv Inv k s body H0 Hstep) as (s1 & Hrun & Hinv).
  unfold for_range in *.
  replace n with (k + Datatypes.S (n - Datatypes.S k))%nat by lia.
  rewrite seq_app, for_loop_app, Hrun. cbn [bind Nat.add seq for_loop].
  now rewrite (Hfail s1 Hinv).
Qed.

Lemma setslice_last_shape {A : Type} (a a' : ndarray4 A) (k l : nat) (v : ndarray2 A) :
  setslice_last a k l v = Ok a' -> shape4 a' = shape4 a.
Proof.
  unfold setslice_last.
  destruct (shape4 a) as [[[n0 n1] n2] n3], (shape2 v) as [v0 v1].
  destruct (Nat.ltb k n2 && Nat.ltb l n3); [|discriminate].
  destruct (fits v0 n0 && fits v1 n1); [|discriminate].
  intros H. inversion H. reflexivity.
Qed.

Lemma bind_ok {A B : Type} (m : result A) (k : A -> result B) (b : B) :
  bind m k = Ok b -> exists a, m = Ok a /\ k a = Ok b.
Proof. destruct m as [a|e]; cbn [bind]; [eauto | discriminate]. Qed.

(** ** Shapes *)

(** [psi_multiply] returns, when it returns, an array of the shape of its
    first argument, whatever the second. *)
Theorem psi_multiply_shape (data_1 data_2 m : ndarray4 C) :
  psi_multiply data_1 data_2 = Ok m -> shape4 m = shape4 data_1.
Proof.
  unfold psi_multiply, for_range.
  destruct (shape4 data_1) as [[[n0 n1] n2] n3]. intros H.
  apply (for_loop_preserves (fun md => shape4 md = (n0, n1, n2, n3)))
    with (3 := H); [|reflexivity].
  intros jj s s' Hin Hs.
  apply (for_loop_preserves (fun md => shape4 md = (n0, n1, n2, n3)))
    with (3 := Hin); [|exact Hs].
  intros ii t t' Hbody Ht.
  apply bind_ok in Hbody as (a & _ & Hbody).
  apply bind_ok in Hbody as (b & _ & Hbody).
  apply bind_ok in Hbody as (p & _ & Hbody).
  apply setslice_last_shape in Hbody. congruence.
Qed.

Lemma psi_multiply_shape_witness :
  exists m,
    psi_multiply (const4 (2, 1, 1, 2)%nat (mkC 1 2)) (const4 (1, 1, 3, 2)%nat (mkC 3 4))
      = Ok m
    /\ shape4 m = (2, 1, 1, 2)%nat.
Proof.
  eexists. split; [reflexivity|].
  apply (psi_multiply_shape (const4 (2, 1, 1, 2)%nat (mkC 1 2))
           (const4 (1, 1, 3, 2)%nat (mkC 3 4))).
  reflexivity.
Defined.

Lemma fft_wigner_probe_returns_shape (E : collaborators) (aperture_mrad voltage : R)
    (image_size : nat * nat) (calibration_pm intensity_param : R) (W : ndarray4 C) :
  fft_wigner_probe E aperture_mrad voltage image_size calibration_pm intensity_param
    = Ok W ->
  shape4 W = (snd image_size, fst image_size, snd image_size, fst image_size).
Proof.
  unfold fft_wigner_probe, for_range. intros H.
  apply bind_ok in H as (tb & _ & H).
  set (sh := (snd image_size, fst image_size, snd image_size, fst image_size)) in *.
  apply (for_loop_preserves (fun wb => shape4 wb = sh)) with (3 := H); [|reflexivity].
  intros x s s' Hin Hs.
  apply (for_loop_preserves (fun wb => shape4 wb = sh)) with (3 := Hin); [|exact Hs].
  intros y t t' Hbody Ht. unfold fft_wigner_probe_body in Hbody.
  apply bind_ok in Hbody as (mv & _ & Hbody).
  apply bind_ok in Hbody as (p & _ & Hbody).
  apply setslice_last_shape in Hbody. congruence.
Qed.

(** [fft_wigner_probe] returns, when it returns, an array of shape
    [(image_size[1], image_size[0], image_size[1], image_size[0])],
    whatever the shape of the probe [make_probe] gave. *)
Theorem fft_wigner_probe_shape (E : collaborators) (aperture_mrad voltage : R)
    (image_size : nat * nat) (calibration_pm intensity_param : R) (W : ndarray4 C) :
  fft_wigner_probe E aperture_mrad voltage image_size calibration_pm intensity_param
    = Ok W ->
  shape4 W = (snd image_size, fst image_size, snd image_size, fst image_size).
Proof. apply fft_wigner_probe_returns_shape. Qed.

Lemma fft_wigner_probe_shape_witness :
  exists W,
    fft_wigner_probe (bench ones) 1 1 (2, 3)%nat 1 1 = Ok W
    /\ shape4 W = (3, 2, 3, 2)%nat.
Proof.
  eexists. split; [reflexivity|].
  apply (fft_wigner_probe_shape (bench ones) 1 1 (2, 3)%nat 1 1). reflexivity.
Defined.

(** [wdd] hands [fft_wigner_probe] the tuple [(image_x, image_y)], of which
    [fft_wigner_probe] reads the first component as its [image_y]: in a run
    of [wdd] that reaches line 167 the Wigner tensor has shape
    [(image_size[0], image_size[1], image_size[0], image_size[1])], the
    transpose of what a direct call with [image_size] returns. *)
Theorem wdd_wigner_beam_shape (E : collaborators) (data4D : ndarray4 R)
    (aperture_mrad voltage : R) (image_size : nat * nat) (calibration_pm : R)
    (f : wdd_locals) :
  wdd_body E data4D aperture_mrad voltage image_size calibration_pm = Ok f ->
  shape4 (wigner_beam f)
  = (fst image_size, snd image_size, fst image_size, snd image_size).
Proof.
  intros H. apply wdd_body_inv in H.
  destruct H as (_ & _ & _ & _ & Hw & _).
  apply fft_wigner_probe_returns_shape in Hw. exact Hw.
Qed.

Lemma wdd_wigner_beam_shape_witness :
  exists f,
    wdd_body (bench ones) (const4 (3, 4, 3, 4)%nat 1) 1 1 (3, 4)%nat 1 = Ok f
    /\ shape4 (wigner_beam f) = (3, 4, 3, 4)%nat.
Proof.
  eexists. split; [reflexivity|].
  apply (wdd_wigner_beam_shape (bench ones) (const4 (3, 4, 3, 4)%nat 1)
           1 1 (3, 4)%nat 1).
  reflexivity.
Defined.

(** ** [psi_multiply] on arrays of different shapes *)

Lemma broadcast_dim_compat (n m : nat) :
  m = n \/ m = 1%nat -> broadcast_dim n m = Ok n.
Proof.
  unfold broadcast_dim. intros [->| ->]; [now rewrite Nat.eqb_refl|].
  destruct (Nat.eqb_spec n 1) as [->|Hn]; [reflexivity|].
  reflexivity.
Qed.

(** One execution of line 38 when the second array has first axes of the
    same length or of length 1. *)
Lemma psi_multiply_body_broadcast (data_1 data_2 md : ndarray4 C)
    (n0 n1 n2 n3 m0 m1 m2 m3 ii jj : nat) :
  shape4 data_1 = (n0, n1, n2, n3) ->
  shape4 data_2 = (m0, m1, m2, m3) ->
  shape4 md = (n0, n1, n2, n3) ->
  m0 = n0 \/ m0 = 1%nat -> m1 = n1 \/ m1 = 1%nat ->
  (ii < n2)%nat -> (jj < n3)%nat -> (ii < m2)%nat -> (jj < m3)%nat ->
  exists md',
    (a <- getslice_last data_1 ii jj ;;
     b <- getslice_last data_2 ii jj ;;
     p <- np_multiply a (np_conj2 b) ;;
     setslice_last md ii jj p) = Ok md'
    /\ shape4 md' = (n0, n1, n2, n3)
    /\ forall i j k l, (i < n0)%nat -> (j < n1)%nat ->
         at4 md' i j k l =
           if Nat.eqb k ii && Nat.eqb l jj
           then Cmult (at4 data_1 i j ii jj)
                      (Cconj (at4 data_2 (bidx m0 i) (bidx m1 j) ii jj))
           else at4 md i j k l.
Proof.
  intros H1 H2 Hm C0' C1' Hi Hj Hi2 Hj2.
  unfold getslice_last, setslice_last, np_multiply. rewrite H1, H2, Hm.
  apply Nat.ltb_lt in Hi as Hi', Hj as Hj', Hi2 as Hi2', Hj2 as Hj2'.
  rewrite Hi', Hj', Hi2', Hj2'. cbn [andb bind shape2 np_conj2 map2].
  rewrite (broadcast_dim_compat n0 m0 C0'), (broadcast_dim_compat n1 m1 C1').
  cbn [bind shape2]. rewrite !fits_same. cbn [andb].
  eexists. split; [reflexivity|]. split; [reflexivity|].
  intros i j k l Hi0 Hj0. cbn [at4 at2].
  rewrite (bidx_in n0 i), (bidx_in n1 j) by assumption.
  rewrite (bidx_in n0 i), (bidx_in n1 j) by assumption. reflexivity.
Qed.

(** The inner loop (line 37) for one [jj]. *)
Lemma psi_multiply_inner (data_1 data_2 md0 : ndarray4 C)
    (n0 n1 n2 n3 m0 m1 m2 m3 jj : nat) :
  shape4 data_1 = (n0, n1, n2, n3) ->
  shape4 data_2 = (m0, m1, m2, m3) ->
  shape4 md0 = (n0, n1, n2, n3) ->
  m0 = n0 \/ m0 = 1%nat -> m1 = n1 \/ m1 = 1%nat ->
  (n2 <= m2)%nat -> (jj < n3)%nat -> (jj < m3)%nat ->
  exists md1,
    for_range n2 md0 (fun ii md =>
       a <- getslice_last data_1 ii jj ;;
       b <- getslice_last data_2 ii jj ;;
       p <- np_multiply a (np_conj2 b) ;;
       setslice_last md ii jj p) = Ok md1
    /\ shape4 md1 = (n0, n1, n2, n3)
    /\ forall i j k l, (i < n0)%nat -> (j < n1)%nat ->
         at4 md1 i j k l =
           if Nat.ltb k n2 && Nat.eqb l jj
           then Cmult (at4 data_1 i j k l)
                      (Cconj (at4 data_2 (bidx m0 i) (bidx m1 j) k l))
           else at4 md0 i j k l.
Proof.
  intros H1 H2 Hs0 C0' C1' Hle Hj Hj2.
  set (prod := fun i j k l =>
         Cmult (at4 data_1 i j k l) (Cconj (at4 data_2 (bidx m0 i) (bidx m1 j) k l))).
  apply (for_range_inv
    (fun ii md => shape4 md = (n0, n1, n2, n3)
       /\ forall i j k l, (i < n0)%nat -> (j < n1)%nat ->
            at4 md i j k l =
              if Nat.ltb k ii && Nat.eqb l jj then prod i j k l
              else at4 md0 i j k l)).
  - split; [assumption|]. intros; reflexivity.
  - intros ii md Hii [Hs Hv].
    destruct (psi_multiply_body_broadcast data_1 data_2 md n0 n1 n2 n3 m0 m1 m2 m3
                ii jj H1 H2 Hs C0' C1' Hii Hj ltac:(lia) Hj2)
      as (md' & Hb & Hs' & Hv').
    exists md'. split; [exact Hb|]. split; [exact Hs'|].
    intros i j k l Hi Hj0. rewrite Hv', Hv by assumption.
    destruct (Nat.eqb_spec k ii) as [->|Hk]; destruct (Nat.eqb_spec l jj) as [->|Hl];
      cbn [andb].
    + replace (Nat.ltb ii (S ii)) with true by (symmetry; apply Nat.ltb_lt; lia).
      reflexivity.
    + now rewrite !andb_false_r.
    + destruct (Nat.ltb_spec k ii), (Nat.ltb_spec k (S ii));
        try lia; reflexivity.
    + now rewrite !andb_false_r.
Qed.

(** The shapes [psi_multiply] accepts: a second array whose first two axes
    each have the length of the first array's or length 1, and whose last
    two axes are at least as long.  The first two axes are broadcast and the
    surplus of the last two is ignored: the entry at [(i, j, k, l)] is
    [data_1[i,j,k,l] * conj(data_2[i or 0, j or 0, k, l])]. *)
Theorem psi_multiply_broadcast (data_1 data_2 : ndarray4 C)
    (n0 n1 n2 n3 m0 m1 m2 m3 : nat) :
  shape4 data_1 = (n0, n1, n2, n3) ->
  shape4 data_2 = (m0, m1, m2, m3) ->
  m0 = n0 \/ m0 = 1%nat -> m1 = n1 \/ m1 = 1%nat ->
  (n2 <= m2)%nat -> (n3 <= m3)%nat ->
  exists m,
    psi_multiply data_1 data_2 = Ok m
    /\ shape4 m = (n0, n1, n2, n3)
    /\ forall i j k l, in_shape4 (n0, n1, n2, n3) i j k l ->
         at4 m i j k l =
           Cmult (at4 data_1 i j k l)
                 (Cconj (at4 data_2 (bidx m0 i) (bidx m1 j) k l)).
Proof.
  intros H1 H2 C0' C1' L2 L3. unfold psi_multiply. rewrite H1.
  set (prod := fun i j k l =>
         Cmult (at4 data_1 i j k l) (Cconj (at4 data_2 (bidx m0 i) (bidx m1 j) k l))).
  destruct (for_range_inv
    (fun jj md => shape4 md = (n0, n1, n2, n3)
       /\ forall i j k l, (i < n0)%nat -> (j < n1)%nat ->
            at4 md i j k l =
              if Nat.ltb k n2 && Nat.ltb l jj then prod i j k l else C0)
    n3 (np_zeros4 (n0, n1, n2, n3))
    (fun jj md => for_range n2 md (fun ii md =>
       a <- getslice_last data_1 ii jj ;;
       b <- getslice_last data_2 ii jj ;;
       p <- np_multiply a (np_conj2 b) ;;
       setslice_last md ii jj p))) as (m & Hrun & Hm & Hval).
  - split; [reflexivity|]. intros i j k l _ _. cbn.
    now rewrite andb_false_r.
  - intros jj md0 Hjj [Hs0 Hv0].
    destruct (psi_multiply_inner data_1 data_2 md0 n0 n1 n2 n3 m0 m1 m2 m3 jj
                H1 H2 Hs0 C0' C1' L2 Hjj ltac:(lia)) as (m1' & Hrun1 & Hm1 & Hval1).
    exists m1'. split; [exact Hrun1|]. split; [exact Hm1|].
    intros i j k l Hi Hj. rewrite Hval1, Hv0 by assumption.
    destruct (Nat.ltb_spec k n2); cbn [andb]; [|reflexivity].
    destruct (Nat.eqb_spec l jj) as [->|Hl].
    + replace (Nat.ltb jj (S jj)) with true by (symmetry; apply Nat.ltb_lt; lia).
      reflexivity.
    + destruct (Nat.ltb_spec l jj), (Nat.ltb_spec l (S jj)); try lia; reflexivity.
  - exists m. split; [exact Hrun|]. split; [exact Hm|].
    intros i j k l (Hi & Hj & Hk & Hl). rewrite Hval by assumption.
    apply Nat.ltb_lt in Hk, Hl. now rewrite Hk, Hl.
Qed.

Lemma psi_multiply_broadcast_witness :
  exists m,
    psi_multiply (const4 (2, 2, 1, 1)%nat (mkC 1 2)) (const4 (1, 2, 3, 1)%nat (mkC 3 4))
      = Ok m
    /\ shape4 m = (2, 2, 1, 1)%nat
    /\ at4 m 1 1 0 0 = Cmult (mkC 1 2) (Cconj (mkC 3 4)).
Proof.
  destruct (psi_multiply_broadcast
              (const4 (2, 2, 1, 1)%nat (mkC 1 2)) (const4 (1, 2, 3, 1)%nat (mkC 3 4))
              2 2 1 1 1 2 3 1 eq_refl eq_refl) as (m & Hm & Hs & Hv).
  - now right.
  - now left.
  - lia.
  - lia.
  - exists m. split; [exact Hm|]. split; [exact Hs|].
    apply (Hv 1 1 0 0)%nat. cbn. repeat split; lia.
Defined.

(** Storing the product raises [ValueError] when a first axis of the second
    array has neither the length of the first array's nor length 1. *)
Lemma store_product_value_error (a b : ndarray2 C) (md : ndarray4 C)
    (n0 n1 n2 n3 m0 m1 k l : nat) :
  shape2 a = (n0, n1) -> shape2 b = (m0, m1) ->
  shape4 md = (n0, n1, n2, n3) ->
  (k < n2)%nat -> (l < n3)%nat ->
  ~ ((m0 = n0 \/ m0 = 1%nat) /\ (m1 = n1 \/ m1 = 1%nat)) ->
  (p <- np_multiply a (np_conj2 b) ;; setslice_last md k l p) = Err ValueError.
Proof.
  intros Ha Hb Hm Hk Hl Hbad.
  unfold np_multiply, setslice_last, np_conj2, broadcast_dim, fits.
  cbn [shape2 map2]. rewrite Ha, Hb.
  apply Nat.ltb_lt in Hk, Hl.
  destruct (Nat.eqb_spec n0 m0), (Nat.eqb_spec n0 1), (Nat.eqb_spec m0 1),
    (Nat.eqb_spec n1 m1), (Nat.eqb_spec n1 1), (Nat.eqb_spec m1 1);
    cbn [bind shape2]; try reflexivity; try (exfalso; lia);
    rewrite Hm, Hk, Hl; cbn [andb];
    repeat match goal with
      | |- context [Nat.eqb ?x ?y] => destruct (Nat.eqb_spec x y)
      end; cbn [andb orb]; try reflexivity; exfalso; lia.
Qed.

(** When a first axis of the second array has neither the length of the
    first array's nor length 1, [psi_multiply] raises [ValueError] (no array
    empty along axes 2 and 3). *)
Theorem psi_multiply_value_error (data_1 data_2 : ndarray4 C)
    (n0 n1 n2 n3 m0 m1 m2 m3 : nat) :
  shape4 data_1 = (n0, n1, n2, n3) ->
  shape4 data_2 = (m0, m1, m2, m3) ->
  (0 < n2)%nat -> (0 < n3)%nat -> (0 < m2)%nat -> (0 < m3)%nat ->
  ~ ((m0 = n0 \/ m0 = 1%nat) /\ (m1 = n1 \/ m1 = 1%nat)) ->
  psi_multiply data_1 data_2 = Err ValueError.
Proof.
  intros H1 H2 P2 P3 Q2 Q3 Hbad. unfold psi_multiply. rewrite H1.
  apply (for_range_fail (fun _ md => shape4 md = (n0, n1, n2, n3)) n3 0);
    [lia | reflexivity | intros; lia |].
  intros md Hs.
  apply (for_range_fail (fun _ md => shape4 md = (n0, n1, n2, n3)) n2 0);
    [lia | exact Hs | intros; lia |].
  intros md' Hs'. unfold getslice_last. rewrite H1, H2.
  apply Nat.ltb_lt in P2 as P2', P3 as P3', Q2 as Q2', Q3 as Q3'.
  rewrite P2', P3', Q2', Q3'. cbn [andb bind].
  now apply (store_product_value_error _ _ md' n0 n1 n2 n3 m0 m1).
Qed.

Lemma psi_multiply_value_error_witness :
  psi_multiply (const4 (2, 2, 1, 1)%nat (mkC 1 2)) (const4 (3, 2, 1, 1)%nat (mkC 3 4))
  = Err ValueError.
Proof.
  apply (psi_multiply_value_error _ _ 2 2 1 1 3 2 1 1); try reflexivity; try lia.
Defined.

Lemma for_loop_skip {S : Type} (l : list nat) (s : S) body :
  (forall i s, body i s = Ok s) -> for_loop l s body = Ok s.
Proof.
  intros Hb. induction l as [|i l IH]; cbn [for_loop]; [reflexivity|].
  rewrite Hb. exact IH.
Qed.

(** When the first array is empty along axis 2 or 3 the loops of
    [psi_multiply] do not run: the result is the array of zeros of the shape
    of the first array, and the second array is not looked at. *)
Theorem psi_multiply_empty (data_1 data_2 : ndarray4 C) (n0 n1 n2 n3 : nat) :
  shape4 data_1 = (n0, n1, n2, n3) ->
  n2 = 0%nat \/ n3 = 0%nat ->
  psi_multiply data_1 data_2 = Ok (np_zeros4 (n0, n1, n2, n3)).
Proof.
  intros H1 Hz. unfold psi_multiply. rewrite H1.
  destruct Hz as [-> | ->]; [|reflexivity].
  unfold for_range. now apply for_loop_skip.
Qed.

Lemma psi_multiply_empty_witness :
  psi_multiply (const4 (2, 2, 0, 3)%nat (mkC 1 2)) (const4 (5, 7, 1, 1)%nat (mkC 3 4))
  = Ok (np_zeros4 (2, 2, 0, 3)%nat).
Proof.
  apply (psi_multiply_empty _ _ 2 2 0 3); [reflexivity | now left].
Defined.

(** ** [fft_wigner_probe]: empty grid and exceptions *)

(** When [image_size] has a zero component the grid is empty: the result is
    the array of zeros and the interpolating shift is not called. *)
Theorem fft_wigner_probe_empty_grid (E : collaborators) (aperture_mrad voltage : R)
    (image_size : nat * nat) (calibration_pm intensity_param : R) (tb : ndarray2 C) :
  fft_wigner_probe_tb E aperture_mrad voltage (snd image_size) (fst image_size)
    calibration_pm = Ok tb ->
  fst image_size = 0%nat \/ snd image_size = 0%nat ->
  fft_wigner_probe E aperture_mrad voltage image_size calibration_pm intensity_param
  = Ok (np_zeros4 (snd image_size, fst image_size, snd image_size, fst image_size)).
Proof.
  intros Htb Hz. unfold fft_wigner_probe. rewrite Htb. cbn [bind].
  destruct image_size as [h w]. cbn [fst snd] in *.
  destruct Hz as [-> | ->]; [|reflexivity].
  unfold for_range. now apply for_loop_skip.
Qed.

Lemma fft_wigner_probe_empty_grid_witness :
  fft_wigner_probe (bench ones) 1 1 (0, 3)%nat 1 1 = Ok (np_zeros4 (3, 0, 3, 0)%nat).
Proof.
  apply (fft_wigner_probe_empty_grid (bench ones) 1 1 (0, 3)%nat 1 1
           (mk2 (3, 0)%nat ones)); [reflexivity | now left].
Defined.

(** On a grid that is not empty, an exception of the interpolating shift at
    the first grid position (offset [(image_x/2, image_y/2)]) is the
    exception of [fft_wigner_probe]. *)
Theorem fft_wigner_probe_shift_error (E : collaborators) (aperture_mrad voltage : R)
    (image_size : nat * nat) (calibration_pm intensity_param : R) (tb : ndarray2 C)
    (e : exn) :
  let image_y := fst image_size in
  let image_x := snd image_size in
  fft_wigner_probe_tb E aperture_mrad voltage image_x image_y calibration_pm = Ok tb ->
  (0 < image_x)%nat -> (0 < image_y)%nat ->
  scnd_shift E (scale_probe tb intensity_param)
    (- (INR 0 - INR image_x / 2), - (INR 0 - INR image_y / 2)) = Err e ->
  fft_wigner_probe E aperture_mrad voltage image_size calibration_pm intensity_param
  = Err e.
Proof.
  intros h w Htb Hw Hh Hsh. unfold fft_wigner_probe. fold h w.
  rewrite Htb. cbn [bind].
  apply (for_range_fail (fun _ (_ : ndarray4 C) => True) w 0);
    [exact Hw | exact I | intros; lia |].
  intros wb _.
  apply (for_range_fail (fun _ (_ : ndarray4 C) => True) h 0);
    [exact Hh | exact I | intros; lia |].
  intros wb' _. unfold fft_wigner_probe_body. now rewrite Hsh.
Qed.

(** A probe whose shape is not that of the image (an axis with neither the
    requested length nor length 1) makes [fft_wigner_probe] raise
    [ValueError] at the first grid position, the shifted probe having the
    shape of the probe. *)
Theorem fft_wigner_probe_probe_shape_error (E : collaborators)
    (aperture_mrad voltage : R) (image_size : nat * nat)
    (calibration_pm intensity_param : R) (tb M : ndarray2 C) (p0 p1 : nat) :
  let image_y := fst image_size in
  let image_x := snd image_size in
  fft_wigner_probe_tb E aperture_mrad voltage image_x image_y calibration_pm = Ok tb ->
  shape2 tb = (p0, p1) ->
  (0 < image_x)%nat -> (0 < image_y)%nat ->
  scnd_shift E (scale_probe tb intensity_param)
    (- (INR 0 - INR image_x / 2), - (INR 0 - INR image_y / 2)) = Ok M ->
  shape2 M = (p0, p1) ->
  ~ ((p0 = image_x \/ p0 = 1%nat) /\ (p1 = image_y \/ p1 = 1%nat)) ->
  fft_wigner_probe E aperture_mrad voltage image_size calibration_pm intensity_param
  = Err ValueError.
Proof.
  intros h w Htb Hp Hw Hh Hsh HM Hbad. unfold fft_wigner_probe. fold h w.
  rewrite Htb. cbn [bind].
  apply (for_range_fail (fun _ wb => shape4 wb = (w, h, w, h)) w 0);
    [exact Hw | reflexivity | intros; lia |].
  intros wb Hs.
  apply (for_range_fail (fun _ wb => shape4 wb = (w, h, w, h)) h 0);
    [exact Hh | exact Hs | intros; lia |].
  intros wb' Hs'. unfold fft_wigner_probe_body. rewrite Hsh. cbn [bind].
  unfold np_multiply, setslice_last, np_conj2, scale_probe, broadcast_dim, fits.
  cbn [shape2 map2]. rewrite Hp, HM, !Nat.eqb_refl. cbn [bind shape2].
  rewrite Hs'. apply Nat.ltb_lt in Hw, Hh. rewrite Hw, Hh. cbn [andb].
  destruct (Nat.eqb_spec p0 w), (Nat.eqb_spec p0 1), (Nat.eqb_spec p1 h),
    (Nat.eqb_spec p1 1); cbn [andb orb]; try reflexivity; exfalso;
    apply Hbad; split; auto.
Qed.

Lemma fft_wigner_probe_shift_error_witness :
  fft_wigner_probe (bench_rejecting_shift ones) 1 1 (2, 2)%nat 1 1 = Err TypeError.
Proof.
  apply (fft_wigner_probe_shift_error (bench_rejecting_shift ones) 1 1 (2, 2)%nat 1 1
           (mk2 (2, 2)%nat ones) TypeError); cbn [fst snd]; try reflexivity; lia.
Defined.

Lemma fft_wigner_probe_probe_shape_error_witness :
  fft_wigner_probe (bench_fixed_probe (3, 2)%nat ones) 1 1 (2, 2)%nat 1 1
  = Err ValueError.
Proof.
  apply (fft_wigner_probe_probe_shape_error (bench_fixed_probe (3, 2)%nat ones)
           1 1 (2, 2)%nat 1 1 (mk2 (3, 2)%nat ones)
           (scale_probe (mk2 (3, 2)%nat ones) 1) 3 2);
    cbn [fst snd]; try reflexivity; lia.
Defined.

(** ** The normalization scalar *)

Lemma rsum_scal_l (n : nat) (f : nat -> R) (c : R) :
  rsum n (fun i => c * f i) = c * rsum n f.
Proof. induction n as [|n IH]; cbn [rsum]; [ring | rewrite IH; ring]. Qed.

Lemma diffractogram_intensity_scale (k : R) (data4D : ndarray4 R) :
  wdd_diffractogram_intensity (map4 (Rmult k) data4D)
  = k * wdd_diffractogram_intensity data4D.
Proof.
  unfold wdd_diffractogram_intensity, np_sum2, np_mean_axes23, map4.
  cbn [shape4 at4]. destruct (shape4 data4D) as [[[n0 n1] n2] n3].
  cbn [shape2 at2]. rewrite <- rsum_scal_l. apply rsum_ext; intros i _.
  rewrite <- rsum_scal_l. apply rsum_ext; intros j _.
  unfold Rdiv. rewrite <- Rmult_assoc. f_equal.
  rewrite <- rsum_scal_l. apply rsum_ext; intros a _.
  now rewrite <- rsum_scal_l.
Qed.

(** Multiplying every count of the dataset by [k > 0] divides the
    normalization scalar of line 161 by [sqrt k]. *)
Theorem intensity_changer_scaling (electron_beam : ndarray2 C) (data4D : ndarray4 R)
    (k : R) :
  0 < k ->
  wdd_intensity_changer electron_beam (map4 (Rmult k) data4D)
  = wdd_intensity_changer electron_beam data4D / sqrt k.
Proof.
  intros Hk. unfold wdd_intensity_changer.
  rewrite diffractogram_intensity_scale.
  rewrite <- sqrt_div_alt by exact Hk. f_equal.
  unfold Rdiv. rewrite Rinv_mult. ring.
Qed.

Lemma intensity_changer_scaling_witness :
  wdd_intensity_changer (mk2 (1, 1)%nat ones) (map4 (Rmult 4) (const4 (1, 1, 1, 1)%nat 1))
  = wdd_intensity_changer (mk2 (1, 1)%nat ones) (const4 (1, 1, 1, 1)%nat 1) / sqrt 4.
Proof.
  apply (intensity_changer_scaling (mk2 (1, 1)%nat ones) (const4 (1, 1, 1, 1)%nat 1) 4).
  lra.
Defined.

Lemma energy_scale_probe (tb : ndarray2 C) (r : R) :
  energy (scale_probe tb r) = wdd_mainbeam_intensity tb * (/ r * / r).
Proof.
  unfold energy, wdd_mainbeam_intensity, np_sum2, np_abs_sq2, scale_probe, map2.
  cbn [shape2 at2]. destruct (shape2 tb) as [n0 n1].
  rewrite <- rsum_scal. apply rsum_ext; intros i _.
  rewrite <- rsum_scal. apply rsum_ext; intros j _.
  rewrite !Cabs_sq. unfold Cdiv_real. cbn [Re Im]. unfold Rdiv. ring.
Qed.

Lemma C_zero_dec (z : C) : z = C0 \/ z <> C0.
Proof.
  destruct z as [a b].
  destruct (Req_dec a 0) as [->|Ha]; [|right; intros H; inversion H; contradiction].
  destruct (Req_dec b 0) as [->|Hb]; [now left|].
  right; intros H; inversion H; contradiction.
Qed.

Lemma mainbeam_intensity_zero (electron_beam : ndarray2 C) :
  (forall i j, (i < fst (shape2 electron_beam))%nat ->
               (j < snd (shape2 electron_beam))%nat ->
               at2 electron_beam i j = C0) ->
  wdd_mainbeam_intensity electron_beam = 0.
Proof.
  unfold wdd_mainbeam_intensity, np_sum2, np_abs_sq2, map2. cbn [shape2 at2].
  destruct (shape2 electron_beam) as [n0 n1]. cbn [fst snd]. intros Hz.
  transitivity (rsum n0 (fun _ => 0)).
  - apply rsum_ext; intros i Hi. transitivity (rsum n1 (fun _ => 0)).
    + apply rsum_ext; intros j Hj. rewrite (Hz i j Hi Hj), Cabs_sq. cbn. ring.
    + clear. induction n1 as [|n IH]; cbn [rsum]; [reflexivity | rewrite IH; ring].
  - clear. induction n0 as [|n IH]; cbn [rsum]; [reflexivity | rewrite IH; ring].
Qed.

(** For a positive diffractogram intensity, the normalization scalar is 0
    exactly when the probe is zero at every pixel (and [fft_wigner_probe]
    then divides the probe by 0). *)
Theorem intensity_changer_zero_iff (electron_beam : ndarray2 C) (data4D : ndarray4 R) :
  0 < wdd_diffractogram_intensity data4D ->
  (wdd_intensity_changer electron_beam data4D = 0
   <-> forall i j, (i < fst (shape2 electron_beam))%nat ->
                   (j < snd (shape2 electron_beam))%nat ->
                   at2 electron_beam i j = C0).
Proof.
  intros Hd. split.
  - intros H0 i j Hi Hj.
    destruct (C_zero_dec (at2 electron_beam i j)) as [Hz|Hz]; [exact Hz|].
    exfalso.
    pose proof (mainbeam_intensity_pos electron_beam i j Hi Hj Hz) as Hm.
    unfold wdd_intensity_changer in H0.
    assert (0 < sqrt (wdd_mainbeam_intensity electron_beam
                      / wdd_diffractogram_intensity data4D))
      by (apply sqrt_lt_R0; now apply Rdiv_lt_0_compat).
    lra.
  - intros Hz. unfold wdd_intensity_changer.
    rewrite (mainbeam_intensity_zero electron_beam Hz).
    unfold Rdiv. rewrite Rmult_0_l. apply sqrt_0.
Qed.

Lemma intensity_changer_zero_iff_witness :
  wdd_intensity_changer (mk2 (1, 1)%nat (fun _ _ => C0)) (const4 (1, 1, 1, 1)%nat 4) = 0.
Proof.
  apply (intensity_changer_zero_iff (mk2 (1, 1)%nat (fun _ _ => C0))
           (const4 (1, 1, 1, 1)%nat 4)).
  - rewrite diffractogram_intensity_total. unfold total_intensity. simpl. lra.
  - intros; reflexivity.
Defined.

(** * The Wigner Probe Synthesizer and the shift *)

Lemma Int_part_IZR (z : Z) : Int_part (IZR z) = z.
Proof. symmetry. apply Int_part_spec. lra. Qed.

Lemma frac_part_IZR (z : Z) : frac_part (IZR z) = 0.
Proof. unfold frac_part. rewrite Int_part_IZR. ring. Qed.

(** For an even length [2 c], the offset passed to the shift at position
    [x] is the integer [c - x]. *)
Lemma grid_offset_even (c x : nat) :
  - (INR x - INR (2 * c) / 2) = IZR (Z.of_nat c - Z.of_nat x).
Proof.
  rewrite minus_IZR, <- !INR_IZR_INZ, mult_INR. simpl (INR 2). field.
Qed.

Lemma Cmix_integer (z a b c : C) :
  Cplus (Cplus (Cscale ((1 - 0) * (1 - 0)) z) (Cscale (0 * (1 - 0)) a))
        (Cplus (Cscale ((1 - 0) * 0) b) (Cscale (0 * 0) c)) = z.
Proof.
  destruct z as [zr zi]. unfold Cplus, Cscale. cbn [Re Im]. f_equal; ring.
Qed.

(** At integer offsets [linear_shift] translates and fills with zeros. *)
Lemma linear_shift_translates (pixels : nat -> nat -> C) (P : ndarray2 C) :
  translates_with_zero_fill (bench_with_shift linear_shift pixels) P.
Proof.
  intros dx dy. cbn [scnd_shift bench_with_shift]. unfold linear_shift.
  cbn [fst snd]. rewrite !Int_part_IZR, !frac_part_IZR.
  eexists. split; [reflexivity|]. split; [reflexivity|].
  intros i j _ _. cbn [at2]. apply Cmix_integer.
Qed.

(** A shift that translates with zero fill returns, at the offsets of an
    even grid, arrays of the shape of its argument. *)
Lemma zero_fill_grid (E : collaborators) (P : ndarray2 C) (cx cy : nat) :
  translates_with_zero_fill E P ->
  forall x y,
  exists M,
    scnd_shift E P (- (INR x - INR (2 * cx) / 2), - (INR y - INR (2 * cy) / 2)) = Ok M
    /\ shape2 M = shape2 P
    /\ forall i j, (i < fst (shape2 P))%nat -> (j < snd (shape2 P))%nat ->
         at2 M i j
         = shifted_entry P (Z.of_nat cx - Z.of_nat x) (Z.of_nat cy - Z.of_nat y) i j.
Proof.
  intros H x y. rewrite !grid_offset_even. apply H.
Qed.

(** C7: with width [image_x = image_size[1]] and height
    [image_y = image_size[0]], a probe [tb] of shape (width, height) and an
    interpolating shift that returns, at the offsets of the grid, arrays of
    the shape of its argument, the array [P] that [fft_wigner_probe] shifts
    has the entries of [tb] divided by the normalization scalar, and the
    result is a (width, height, width, height) array that holds, for every
    grid position [x < width], [y < height], at position [(x, y)] of its last
    two axes, the elementwise product of the conjugate of [P] and of what
    the shift returns for [P] and the offset [-(x - width/2, y - height/2)].
    The function does no index arithmetic of its own on the shifted array:
    when the dimensions are even (the offsets are then integers) and the
    shift translates with zero fill, the entry at [(i, j, x, y)] is
    [conj(P[i, j]) * P[i + x - width/2, j + y - height/2]], and 0 when that
    index is outside the frame, without wrap-around. *)
Theorem wigner_probe_grid (E : collaborators) (aperture_mrad voltage : R)
    (image_y image_x : nat) (calibration_pm intensity_param : R) (tb : ndarray2 C) :
  fft_wigner_probe_tb E aperture_mrad voltage image_x image_y calibration_pm = Ok tb ->
  shape2 tb = (image_x, image_y) ->
  (forall x y, (x < image_x)%nat -> (y < image_y)%nat ->
     exists M,
       scnd_shift E (scale_probe tb intensity_param)
         (- (INR x - INR image_x / 2), - (INR y - INR image_y / 2)) = Ok M
       /\ shape2 M = (image_x, image_y)) ->
  let P := scale_probe tb intensity_param in
  shape2 P = (image_x, image_y)
  /\ (forall i j,
        at2 P i j = mkC (Re (at2 tb i j) / intensity_param)
                        (Im (at2 tb i j) / intensity_param))
  /\ exists W,
       fft_wigner_probe E aperture_mrad voltage (image_y, image_x) calibration_pm
         intensity_param = Ok W
       /\ shape4 W = (image_x, image_y, image_x, image_y)
       /\ (forall x y, (x < image_x)%nat -> (y < image_y)%nat ->
           exists M,
             scnd_shift E P
               (- (INR x - INR image_x / 2), - (INR y - INR image_y / 2)) = Ok M
             /\ forall i j, (i < image_x)%nat -> (j < image_y)%nat ->
                  at4 W i j x y =
                    Cmult (Cconj (mkC (Re (at2 tb i j) / intensity_param)
                                      (Im (at2 tb i j) / intensity_param)))
                          (at2 M i j))
       /\ (forall cx cy, image_x = (2 * cx)%nat -> image_y = (2 * cy)%nat ->
           translates_with_zero_fill E P ->
           forall x y i j,
             (x < image_x)%nat -> (y < image_y)%nat ->
             (i < image_x)%nat -> (j < image_y)%nat ->
             at4 W i j x y =
               Cmult (Cconj (mkC (Re (at2 tb i j) / intensity_param)
                                 (Im (at2 tb i j) / intensity_param)))
                     (shifted_entry P (Z.of_nat cx - Z.of_nat x)
                        (Z.of_nat cy - Z.of_nat y) i j)).
Proof.
  intros Htb Hsh Hshift P.
  assert (HP : shape2 P = (image_x, image_y)) by exact Hsh.
  split; [exact HP|]. split; [intros; reflexivity|].
  destruct (fft_wigner_probe_entries E aperture_mrad voltage (image_y, image_x)
              calibration_pm intensity_param tb Htb Hsh Hshift)
    as (W & HW & Hs & Hent).
  cbn [fst snd] in Hs, Hent. fold P in Hent.
  exists W. split; [exact HW|]. split; [exact Hs|]. split.
  - intros x y Hx Hy. destruct (Hent x y Hx Hy) as (M & HM & Hv).
    exists M. split; [exact HM|]. intros i j Hi Hj. now rewrite (Hv i j Hi Hj).
  - intros cx cy -> -> Hz x y i j Hx Hy Hi Hj.
    destruct (Hent x y Hx Hy) as (M & HM & Hv).
    destruct (zero_fill_grid E P cx cy Hz x y) as (M' & HM' & _ & Hv').
    rewrite HM in HM'. inversion HM'; subst M'; clear HM'.
    rewrite (Hv i j Hi Hj), Hv'; [reflexivity | rewrite HP; exact Hi | rewrite HP; exact Hj].
Qed.

Lemma wigner_probe_grid_witness :
  exists W,
    fft_wigner_probe (bench_with_shift linear_shift ramp) 1 1 (2, 2)%nat 1 2 = Ok W
    /\ at4 W 0 0 0 0 = C0
    /\ at4 W 1 1 0 0 = mkC (1 / 2) 0.
Proof.
  destruct (wigner_probe_grid (bench_with_shift linear_shift ramp) 1 1 2 2 1 2
              (mk2 (2, 2)%nat ramp) eq_refl eq_refl)
    as (_ & _ & W & HW & _ & _ & Hz).
  - intros x y _ _. eexists. split; reflexivity.
  - specialize (Hz 1 1 eq_refl eq_refl (linear_shift_translates ramp _))%nat.
    exists W. split; [exact HW|]. split.
    + rewrite (Hz 0 0 0 0)%nat by lia.
      unfold Cmult, Cconj, C0, shifted_entry, entry_or_zero, scale_probe, ramp, RtoC.
      cbn. f_equal; field.
    + rewrite (Hz 0 0 1 1)%nat by lia.
      unfold Cmult, Cconj, shifted_entry, entry_or_zero, scale_probe, ramp, RtoC,
        Cdiv_real.
      cbn. f_equal; field.
Defined.

(** ** Translations with zero fill do not add intensity *)


Lemma rsum_zero (n : nat) (f : nat -> R) :
  (forall i, (i < n)%nat -> f i = 0) -> rsum n f = 0.
Proof.
  induction n as [|n IH]; intros H; cbn [rsum]; [reflexivity|].
  rewrite IH by (intros; apply H; lia). rewrite H by lia. ring.
Qed.














(** * The normalization scalar and the worded formula *)

Lemma total_intensity_pos_dims (data4D : ndarray4 R) (n0 n1 n2 n3 : nat) :
  shape4 data4D = (n0, n1, n2, n3) ->
  0 < total_intensity data4D ->
  (0 < n0 * n1)%nat /\ (0 < n2 * n3)%nat.
Proof.
  unfold total_intensity. intros -> Hpos.
  destruct n0 as [|n0]; [cbn [rsum] in Hpos; lra|].
  destruct n1 as [|n1].
  { rewrite rsum_zero in Hpos by (intros; reflexivity). lra. }
  destruct n2 as [|n2].
  { rewrite rsum_zero in Hpos; [lra|]. intros. apply rsum_zero. intros; reflexivity. }
  destruct n3 as [|n3].
  { rewrite rsum_zero in Hpos; [lra|]. intros. apply rsum_zero. intros.
    apply rsum_zero. intros; reflexivity. }
  split; lia.
Qed.

(** C4 (amended): the normalization scalar of line 161 is the square root of
    (sum of squared magnitudes of the probe) divided by (the total intensity
    of the dataset divided by the number of detector pixels): the mean of
    line 159 runs over the two detector axes (2, 3) and the sum over the two
    scan axes (0, 1).  The worded scalar divides the total by the number of
    scan positions instead.  The two agree when the dataset has as many scan
    positions as detector pixels, and, for a probe and a dataset of positive
    total intensity, in that case only. *)
Theorem intensity_changer_detector_mean (electron_beam : ndarray2 C) (data4D : ndarray4 R) :
  let '(n0, n1, n2, n3) := shape4 data4D in
  wdd_intensity_changer electron_beam data4D =
    sqrt (spec_probe_energy electron_beam / (total_intensity data4D / INR (n2 * n3)))
  /\ spec_normalization electron_beam data4D =
    sqrt (spec_probe_energy electron_beam / (total_intensity data4D / INR (n0 * n1)))
  /\ ((n0 * n1 = n2 * n3)%nat ->
      wdd_intensity_changer electron_beam data4D =
        spec_normalization electron_beam data4D)
  /\ (0 < spec_probe_energy electron_beam ->
      0 < total_intensity data4D ->
      wdd_intensity_changer electron_beam data4D =
        spec_normalization electron_beam data4D ->
      (n0 * n1 = n2 * n3)%nat).
Proof.
  pose proof (diffractogram_intensity_total data4D) as Hd.
  pose proof (total_intensity_pos_dims data4D) as Hdims.
  unfold wdd_intensity_changer, spec_normalization, spec_mean_diffraction.
  rewrite mainbeam_intensity_energy, Hd.
  set (e := spec_probe_energy electron_beam).
  set (t := total_intensity data4D) in *.
  assert (Ht : t = total_intensity data4D) by reflexivity.
  unfold total_intensity in Ht.
  destruct (shape4 data4D) as [[[n0 n1] n2] n3]. rewrite <- Ht.
  split; [reflexivity|]. split; [reflexivity|]. split.
  - intros Heq. now rewrite Heq.
  - intros He Hpos Hsq.
    destruct (Hdims n0 n1 n2 n3 eq_refl Hpos) as [H01 H23].
    apply lt_0_INR in H01, H23.
    assert (Ha : 0 < e / (t / INR (n2 * n3))).
    { apply Rdiv_lt_0_compat; [exact He|]. now apply Rdiv_lt_0_compat. }
    assert (Hb : 0 < e / (t / INR (n0 * n1))).
    { apply Rdiv_lt_0_compat; [exact He|]. now apply Rdiv_lt_0_compat. }
    apply sqrt_inj in Hsq; [|lra|lra].
    apply INR_eq.
    assert (Hx : e * INR (n2 * n3) / t = e * INR (n0 * n1) / t).
    { transitivity (e / (t / INR (n2 * n3))); [field; lra|].
      rewrite Hsq. field; lra. }
    assert (Hy : e * INR (n2 * n3) = e * INR (n0 * n1)).
    { apply (Rmult_eq_reg_r (/ t)); [exact Hx|]. apply Rinv_neq_0_compat. lra. }
    apply Rmult_eq_reg_l in Hy; [now symmetry | lra].
Qed.

Lemma intensity_changer_detector_mean_witness :
  wdd_intensity_changer (mk2 (2, 1)%nat ones) (const4 (1, 1, 1, 1)%nat 1)
  = spec_normalization (mk2 (2, 1)%nat ones) (const4 (1, 1, 1, 1)%nat 1).
Proof.
  destruct (intensity_changer_detector_mean (mk2 (2, 1)%nat ones)
              (const4 (1, 1, 1, 1)%nat 1)) as (_ & _ & H & _).
  apply H. reflexivity.
Defined.

(** * The probe that the scalar divides *)

(** In a run of [wdd] the scalar of line 161 is computed from the probe of
    line 158 ([electron_beam]) and divides, at line 96, the probe [tb] that
    [fft_wigner_probe] asks [make_probe] for itself, with the sizes in the
    order line 162 hands them over: the loops of lines 98-104 run on [tb]
    divided by that scalar.  For positive intensities the scaled
    [tb] has total intensity (diffractogram intensity) x (total intensity of
    [tb]) / (total intensity of [electron_beam]): it is the diffractogram
    intensity exactly when the two probes have the same total intensity. *)
Theorem scaled_probe_energy (E : collaborators) (data4D : ndarray4 R)
    (aperture_mrad voltage : R) (image_size : nat * nat) (calibration_pm : R)
    (f : wdd_locals) (tb : ndarray2 C) :
  wdd_body E data4D aperture_mrad voltage image_size calibration_pm = Ok f ->
  fft_wigner_probe_tb E aperture_mrad voltage (fst image_size) (snd image_size)
    calibration_pm = Ok tb ->
  0 < wdd_mainbeam_intensity (electron_beam f) ->
  0 < wdd_diffractogram_intensity data4D ->
  for_range (fst image_size)
    (np_zeros4 (fst image_size, snd image_size, fst image_size, snd image_size))
    (fun rows_x wb => for_range (snd image_size) wb (fun rows_y wb =>
       fft_wigner_probe_body E
         (scale_probe tb (wdd_intensity_changer (electron_beam f) data4D))
         (fst image_size) (snd image_size) rows_x rows_y wb))
  = Ok (wigner_beam f)
  /\ energy (scale_probe tb (wdd_intensity_changer (electron_beam f) data4D))
     = wdd_diffractogram_intensity data4D
       * (energy tb / wdd_mainbeam_intensity (electron_beam f))
  /\ (energy (scale_probe tb (wdd_intensity_changer (electron_beam f) data4D))
      = wdd_diffractogram_intensity data4D
      <-> energy tb = wdd_mainbeam_intensity (electron_beam f)).
Proof.
  intros Hb Htb Hm Hd. apply wdd_body_inv in Hb.
  destruct Hb as (_ & _ & _ & Hic & Hw & _). rewrite Hic in Hw.
  unfold fft_wigner_probe in Hw. cbn [fst snd] in Hw. rewrite Htb in Hw.
  cbn [bind] in Hw.
  split; [exact Hw|].
  set (m := wdd_mainbeam_intensity (electron_beam f)) in *.
  set (d := wdd_diffractogram_intensity data4D) in *.
  assert (Hq : 0 < m / d) by now apply Rdiv_lt_0_compat.
  assert (He : energy (scale_probe tb (wdd_intensity_changer (electron_beam f) data4D))
               = d * (energy tb / m)).
  { rewrite energy_scale_probe. unfold wdd_intensity_changer. fold m d.
    rewrite <- Rinv_mult, sqrt_def by lra.
    change (wdd_mainbeam_intensity tb) with (energy tb). field. lra. }
  split; [exact He|]. rewrite He. split.
  - intros H. apply (Rmult_eq_reg_l d); [|lra].
    transitivity (m * (d * (energy tb / m))); [field; lra | rewrite H; ring].
  - intros ->. field. lra.
Qed.

Lemma scaled_probe_energy_witness :
  exists f tb,
    wdd_body (bench ramp) (const4 (1, 2, 1, 1)%nat 1) 1 1 (1, 2)%nat 1 = Ok f
    /\ fft_wigner_probe_tb (bench ramp) 1 1 1 2 1 = Ok tb
    /\ shape2 (electron_beam f) = (2, 1)%nat
    /\ shape2 tb = (1, 2)%nat
    /\ energy (scale_probe tb
                 (wdd_intensity_changer (electron_beam f) (const4 (1, 2, 1, 1)%nat 1)))
       = wdd_diffractogram_intensity (const4 (1, 2, 1, 1)%nat 1)
         * (energy tb / wdd_mainbeam_intensity (electron_beam f)).
Proof.
  eexists. eexists. split; [reflexivity|]. split; [reflexivity|].
  split; [reflexivity|]. split; [reflexivity|].
  eapply (scaled_probe_energy (bench ramp) (const4 (1, 2, 1, 1)%nat 1) 1 1 (1, 2)%nat 1).
  - reflexivity.
  - reflexivity.
  - apply (mainbeam_intensity_pos _ 0 0)%nat; cbn; try lia.
    unfold ramp, RtoC, C0. cbn. intros H. inversion H. lra.
  - rewrite diffractogram_intensity_total. unfold total_intensity. simpl. lra.
Defined.
